(** * focus4: the validation engine and the search store

    A shallow embedding of [src/validation.ts] and of the [SearchStore]
    class, with the properties of the repository's specification stated and
    proved (or refuted) over it.

    - [JS]          : the fragment of JavaScript values the code computes
                      with, and [Host], what it takes from its runtime;
    - [Validation]  : [validate], [validateProperty] and the validators;
    - [QueryInput], [QueryOutput], [GroupResult], [FacetOutput],
      [EntityField], [SearchProperties], [Store] : the data of the store;
    - [SearchStore] : the derived values, [search], [toggleAll],
                      [setProperties] and [getSearchGroupStore]. *)

From Stdlib Require Import PrimFloat Uint63 ZArith Floats.
From stdpp Require Import gmap strings list fin_maps.

Local Open Scope string_scope.
Local Open Scope list_scope.

(* ===================================================================== *)
(** * JavaScript values *)
(* ===================================================================== *)

Module JS.

(** A JavaScript [number] is an IEEE 754 binary64 float. *)
Abbreviation number := float.

(** The primitive values a form field or a criterion holds. *)
Inductive value : Type :=
  | VUndefined
  | VNull
  | VBool (b : bool)
  | VNum (n : number)
  | VStr (s : string).

(** lodash's [isNull], [isUndefined], [isNumber]. *)
Definition isNull (v : value) : bool :=
  match v with VNull => true | _ => false end.

Definition isUndefined (v : value) : bool :=
  match v with VUndefined => true | _ => false end.

Definition isNumber (v : value) : bool :=
  match v with VNum _ => true | _ => false end.

(** [isNaN] on a number. *)
Definition isNaN (n : number) : bool := PrimFloat.is_nan n.

(** ToBoolean on numbers: [0], [-0] and [NaN] are falsy. *)
Definition number_truthy (n : number) : bool :=
  negb (PrimFloat.is_zero n || PrimFloat.is_nan n).

(** ToBoolean on strings: only the empty string is falsy. *)
Definition string_truthy (s : string) : bool :=
  match s with EmptyString => false | _ => true end.

(** ToBoolean, as used by [!x], [x || y], [x && y] and [if (x)]. *)
Definition truthy (v : value) : bool :=
  match v with
  | VUndefined | VNull => false
  | VBool b => b
  | VNum n => number_truthy n
  | VStr s => string_truthy s
  end.

(** [a >= b] and [a <= b] on numbers (false as soon as one side is NaN). *)
Definition ge (a b : number) : bool := PrimFloat.leb b a.
Definition le (a b : number) : bool := PrimFloat.leb a b.

(** The number of an array or string length. *)
Definition number_of_nat (n : nat) : number :=
  PrimFloat.of_uint63 (Uint63Axioms.of_Z (Z.of_nat n)).

(** [x || d] for an optional number. *)
Definition number_or (x : option number) (d : number) : number :=
  match x with
  | Some n => if number_truthy n then n else d
  | None => d
  end.

(** What a JavaScript computation ends in: a value, or an exception. *)
Inductive exn : Type :=
  | TypeError (msg : string)
  | Rejection (reason : value).

Inductive completion (A : Type) : Type :=
  | Normal (a : A)
  | Abrupt (e : exn).
Arguments Normal {A} a.
Arguments Abrupt {A} e.

End JS.
Import JS.

(** What the code takes from its runtime and from libraries that are not part
    of the repository's sources: the regular-expression engine, the
    string-to-number conversion behind unary [+], [moment] and the
    translation function. *)
Class Host : Type := {
  RegExp : Type;
  (** [re.test(v)] *)
  RegExp_test : RegExp → value → bool;
  (** the constant [EMAIL_REGEX] of [validation.ts] *)
  EMAIL_REGEX : RegExp;
  (** ECMAScript's StringToNumber *)
  StringToNumber : string → number;
  (** [moment(v).isValid()] *)
  moment_isValid : value → bool;
  (** [translate] of [./translation] *)
  translate : string → string;
}.

(* ===================================================================== *)
(** * validation.ts *)
(* ===================================================================== *)

Module Validation.
Section Validators.
Context `{host : Host}.

(** Unary plus: ToNumber. *)
Definition ToNumber (v : value) : number :=
  match v with
  | VUndefined => nan
  | VNull => 0%float
  | VBool true => 1%float
  | VBool false => 0%float
  | VNum n => n
  | VStr s => StringToNumber s
  end.

Record ValidationProperty : Type := {
  modelName : option string;
  name : string;
  value : JS.value;
}.

Record TrKey : Type := { translationKey : option string }.

Record NumberOptions : Type := {
  number_translationKey : option string;
  min : option number;
  max : option number;
}.

Record StringOptions : Type := {
  string_translationKey : option string;
  minLength : option number;
  maxLength : option number;
}.

Record FunctionOptions : Type := {
  function_translationKey : option string;
  isEdit : option bool;
}.

(** The union [Validator], discriminated by [type]; the last constructor is
    a descriptor whose [type] is none of the seven known kinds (the
    [default] branch of [validateProperty]). *)
Inductive Validator : Type :=
  | DateValidator (options : option TrKey)
  | EmailValidator (options : option TrKey)
  | FunctionValidator (value : JS.value → option FunctionOptions → bool)
                      (options : option FunctionOptions)
  | NumberValidator (options : option NumberOptions)
  | RegexValidator (value : RegExp) (options : option TrKey)
  | RequiredValidator (value : bool) (options : option TrKey)
  | StringValidator (options : option StringOptions)
  | UnknownValidator (type : string) (options : option TrKey).

Definition validator_type (validator : Validator) : string :=
  match validator with
  | DateValidator _ => "date"
  | EmailValidator _ => "email"
  | FunctionValidator _ _ => "function"
  | NumberValidator _ => "number"
  | RegexValidator _ _ => "regex"
  | RequiredValidator _ _ => "required"
  | StringValidator _ => "string"
  | UnknownValidator type _ => type
  end.

(** [validator.options], seen as a [TrKey]. *)
Definition validator_options (validator : Validator) : option TrKey :=
  match validator with
  | DateValidator o | EmailValidator o | RegexValidator _ o
  | RequiredValidator _ o | UnknownValidator _ o => o
  | FunctionValidator _ o =>
      (λ o, {| translationKey := function_translationKey o |}) <$> o
  | NumberValidator o =>
      (λ o, {| translationKey := number_translationKey o |}) <$> o
  | StringValidator o =>
      (λ o, {| translationKey := string_translationKey o |}) <$> o
  end.

Definition dateValidator (text : JS.value) : bool := moment_isValid text.

Definition emailValidator (text : JS.value) : bool :=
  RegExp_test EMAIL_REGEX text.

Definition numberValidator (text : JS.value) (options : option NumberOptions)
    : bool :=
  if isUndefined text || isNull text then true
  else
    let n := ToNumber text in
    if isNaN n || negb (isNumber (VNum n)) then false
    else
      match options with
      | None => true
      | Some options =>
          let isMin :=
            match min options with Some m => ge n m | None => true end in
          let isMax :=
            match max options with Some m => le n m | None => true end in
          isMin && isMax
      end.

(** [text.length]: a number on a string (the strings of the model are
    sequences of 8-bit characters), [undefined] on the other primitives,
    which a relational comparison turns into NaN. *)
Definition text_length (text : JS.value) : number :=
  match text with
  | VStr s => number_of_nat (String.length s)
  | _ => nan
  end.

(** [options.minLength = options.minLength || 0] writes the default back
    into the descriptor; the write is idempotent, so the validator is
    modelled as a function of the descriptor it receives. After it
    [options.minLength !== undefined] always holds, and the lower bound is
    always compared. *)
Definition stringValidator (text : JS.value) (options : option StringOptions)
    : bool :=
  match options with
  | None => true
  | Some options =>
      let minLength' := number_or (minLength options) 0%float in
      let isMinLength := ge (text_length text) minLength' in
      let isMaxLength :=
        match maxLength options with
        | Some m => le (text_length text) m
        | None => true
        end in
      isMinLength && isMaxLength
  end.

Definition getErrorLabel (type fieldName : string) (options : option TrKey)
    : string :=
  translate
    match options with
    | Some {| translationKey := Some key |} =>
        if string_truthy key then key else "domain.validation." +:+ type
    | _ => "domain.validation." +:+ type
    end.

(** [value || ""] *)
Definition value_or_empty (v : JS.value) : JS.value :=
  if truthy v then v else VStr "".

(** The immediately-invoked [switch] of [validateProperty]: [Some true],
    [Some false], or [None] for [undefined]. *)
Definition isValid_of (property : ValidationProperty) (validator : Validator)
    : option bool :=
  let value := value property in
  let isValueNullOrUndefined := isNull value || isUndefined value in
  match validator with
  | RequiredValidator validator_value _ =>
      let prevalidString :=
        match value with VStr "" => false | _ => true end in
      Some (if validator_value
            then negb (isNull value) && negb (isUndefined value)
                 && prevalidString
            else true)
  | RegexValidator validator_value _ =>
      if isValueNullOrUndefined then Some true
      else Some (RegExp_test validator_value value)
  | EmailValidator _ =>
      if isValueNullOrUndefined then Some true
      else Some (emailValidator value)
  | NumberValidator options => Some (numberValidator value options)
  | StringValidator options =>
      Some (stringValidator (value_or_empty value) options)
  | DateValidator _ => Some (dateValidator value)
  | FunctionValidator validator_value options =>
      Some (validator_value value options)
  | UnknownValidator _ _ => None
  end.

(** [property.modelName + "." + property.name] *)
Definition fieldName_of (property : ValidationProperty) : string :=
  default "undefined" (modelName property) +:+ "." +:+ name property.

(** [validateProperty]: the error label, or [None] for [undefined]. The
    [console.warn] of the unknown kind leaves no trace in the result. *)
Definition validateProperty (property : ValidationProperty)
    (validator : Validator) : option string :=
  match isValid_of property validator with
  | None => None
  | Some false =>
      Some (getErrorLabel (validator_type validator) (fieldName_of property)
              (validator_options validator))
  | Some true => None
  end.

Record ValidationResult : Type := {
  result_name : string;
  result_value : JS.value;
  isValid : bool;
  errors : list string;
}.

(** The [for … of] loop of [validate]: [errors.push(res)] for each
    validator whose result is not [undefined]. *)
Definition validate_loop (property : ValidationProperty)
    (validators : list Validator) (errors : list string) : list string :=
  foldl (λ errors validator,
           match validateProperty property validator with
           | Some res => errors ++ [res]
           | None => errors
           end) errors validators.

Definition validate (property : ValidationProperty)
    (validators : option (list Validator)) : ValidationResult :=
  let errors :=
    match validators with
    | Some validators => validate_loop property validators []
    | None => []
    end in
  {| result_name := name property;
     result_value := value property;
     isValid := Nat.eqb 0 (length errors);
     errors := errors |}.

End Validators.
End Validation.

(* ===================================================================== *)
(** * The types of the search module *)
(* ===================================================================== *)

(** Modelled from the spec: the declarations of [./types] and [../entity]
    are not part of the sources; the records below carry the members the
    specification lists for them and the store reads. *)

Module FacetOutput.
Record t : Type := {
  code : string;
  label : string;
  values : list (string * string);
}.
End FacetOutput.

Module GroupResult.
Record t (T : Type) : Type := {
  code : string;
  label : string;
  list : list T;
  totalCount : number;
}.
Arguments code {T} _.
Arguments label {T} _.
Arguments list {T} _.
Arguments totalCount {T} _.
End GroupResult.

Module QueryInput.
Record t : Type := {
  criteria : gmap string value;
  facets : gmap string string;
  group : string;
  skip : nat;
  sortDesc : bool;
  sortFieldName : option string;
  top : option number;
}.
End QueryInput.

Module QueryOutput.
Record t (T : Type) : Type := {
  list : option (list T);
  groups : option (Datatypes.list (GroupResult.t T));
  facets : Datatypes.list FacetOutput.t;
  totalCount : number;
}.
Arguments list {T} _.
Arguments groups {T} _.
Arguments facets {T} _.
Arguments totalCount {T} _.
End QueryOutput.

(** A field of the criteria node: [{$entity: {domain}, value}], with
    [domain] and [domain.validator] optional. *)
Module EntityField.
Section Fields.
Context `{host : Host}.
Record Domain : Type := { validator : option (list Validation.Validator) }.
Record t : Type := {
  domain : option Domain;
  value : JS.value;
}.
End Fields.
End EntityField.

(** [SearchProperties]: each key is absent ([None]), or present with a value
    that may itself be [undefined] ([Some None]). *)
Module SearchProperties.
Record t : Type := {
  query : option (option string);
  groupingKey : option (option string);
  selectedFacets : option (option (gmap string string));
  sortAsc : option (option bool);
  sortBy : option (option string);
  top : option (option number);
}.
End SearchProperties.

(** How the promise of a service call settles. *)
Inductive Settled (A : Type) : Type :=
  | Fulfilled (a : A)
  | Rejected (reason : value).
Arguments Fulfilled {A} a.
Arguments Rejected {A} reason.

(** The fields of a [SearchStore]. Those of [ListStoreBase] come first.

    Modelled from the spec: [ListStoreBase] ([../list]) is not part of the
    sources; its fields [query], [sortAsc], [sortBy], [top], [selectedList],
    [pendingCount] and [serverCount] are declared as the specification's
    data model gives them. Items are compared by identity, hence the
    decidable equality on [T]. *)
Module Store.
Record t `{host : Host} (T : Type) : Type := {
  query : option string;
  sortAsc : option bool;
  sortBy : option string;
  top : option number;
  selectedList : list T;
  pendingCount : Z;
  serverCount : number;
  blockSearch : bool;
  criteria : option (gmap string EntityField.t);
  groupingKey : option string;
  selectedFacets : gmap string string;
  facets : list FacetOutput.t;
  list : list T;
  groups : Datatypes.list (GroupResult.t T);
  service : QueryInput.t → Settled (QueryOutput.t T);
}.
Arguments query {host T} _.
Arguments sortAsc {host T} _.
Arguments sortBy {host T} _.
Arguments top {host T} _.
Arguments selectedList {host T} _.
Arguments pendingCount {host T} _.
Arguments serverCount {host T} _.
Arguments blockSearch {host T} _.
Arguments criteria {host T} _.
Arguments groupingKey {host T} _.
Arguments selectedFacets {host T} _.
Arguments facets {host T} _.
Arguments list {host T} _.
Arguments groups {host T} _.
Arguments service {host T} _.
End Store.

(* ===================================================================== *)
(** * SearchStore *)
(* ===================================================================== *)

Module SearchStore.
Section SearchStore.
Context `{host : Host} {T : Type} `{EqDecision T}.

Implicit Types this : Store.t T.

(** ** Assignments to the mutable members *)

Definition set_selectedList (selectedList : list T) this : Store.t T :=
  {| Store.query := Store.query this;
     Store.sortAsc := Store.sortAsc this;
     Store.sortBy := Store.sortBy this;
     Store.top := Store.top this;
     Store.selectedList := selectedList;
     Store.pendingCount := Store.pendingCount this;
     Store.serverCount := Store.serverCount this;
     Store.blockSearch := Store.blockSearch this;
     Store.criteria := Store.criteria this;
     Store.groupingKey := Store.groupingKey this;
     Store.selectedFacets := Store.selectedFacets this;
     Store.facets := Store.facets this;
     Store.list := Store.list this;
     Store.groups := Store.groups this;
     Store.service := Store.service this |}.

Definition set_pendingCount (pendingCount : Z) this : Store.t T :=
  {| Store.query := Store.query this;
     Store.sortAsc := Store.sortAsc this;
     Store.sortBy := Store.sortBy this;
     Store.top := Store.top this;
     Store.selectedList := Store.selectedList this;
     Store.pendingCount := pendingCount;
     Store.serverCount := Store.serverCount this;
     Store.blockSearch := Store.blockSearch this;
     Store.criteria := Store.criteria this;
     Store.groupingKey := Store.groupingKey this;
     Store.selectedFacets := Store.selectedFacets this;
     Store.facets := Store.facets this;
     Store.list := Store.list this;
     Store.groups := Store.groups this;
     Store.service := Store.service this |}.

(** [facets.replace], [list.replace], [groups.replace] and the assignment to
    [serverCount]. *)
Definition set_results (facets : list FacetOutput.t) (list : list T)
    (groups : Datatypes.list (GroupResult.t T)) (serverCount : number) this
    : Store.t T :=
  {| Store.query := Store.query this;
     Store.sortAsc := Store.sortAsc this;
     Store.sortBy := Store.sortBy this;
     Store.top := Store.top this;
     Store.selectedList := Store.selectedList this;
     Store.pendingCount := Store.pendingCount this;
     Store.serverCount := serverCount;
     Store.blockSearch := Store.blockSearch this;
     Store.criteria := Store.criteria this;
     Store.groupingKey := Store.groupingKey this;
     Store.selectedFacets := Store.selectedFacets this;
     Store.facets := facets;
     Store.list := list;
     Store.groups := groups;
     Store.service := Store.service this |}.

(** ** Derived values *)

(** [flatten(this.groups.map(g => g.list.slice()))] when there are groups,
    [this.list] otherwise. *)
Definition flatResultList this : list T :=
  if negb (Nat.eqb (length (Store.groups this)) 0)
  then concat (map GroupResult.list (Store.groups this))
  else Store.list this.

Definition currentCount this : nat := length (flatResultList this).

Definition totalCount this : number := Store.serverCount this.

(** [facets.find(facet => facet.code === this.groupingKey)], then
    [group && group.label || this.groupingKey]. *)
Definition groupingLabel this : option string :=
  let group :=
    find (λ facet, bool_decide (Some (FacetOutput.code facet)
                                = Store.groupingKey this))
         (Store.facets this) in
  match group with
  | Some group =>
      if string_truthy (FacetOutput.label group)
      then Some (FacetOutput.label group)
      else Store.groupingKey this
  | None => Store.groupingKey this
  end.

(** Modelled from the spec: [selectedItems] of [ListStoreBase] is not part
    of the sources; it is the set of the items of [selectedList], kept here
    as the list of its distinct members. *)
Definition selectedItems this : list T := remove_dups (Store.selectedList this).

(** The keys a [for … in] loop visits. *)
Definition keys {V : Type} (object : gmap string V) : list string :=
  (map_to_list object).*1.

(** The test of [criteriaErrors] on one entry: [true] when the [continue]
    branch is taken. *)
Definition entry_in_error (entry : EntityField.t) : bool :=
  let value := EntityField.value entry in
  match EntityField.domain entry ≫= EntityField.validator with
  | Some validator =>
      if negb (isUndefined value) && negb (isNull value) then
        let validStat :=
          Validation.validate
            {| Validation.modelName := None;
               Validation.name := "";
               Validation.value := value |}
            (Some validator) in
        negb (Nat.eqb (length (Validation.errors validStat)) 0)
      else false
  | None => false
  end.

(** The body of the loop of [criteriaErrors]. A criteria node carries,
    besides its fields, the methods [set] and [clear]; the loop skips both
    names. *)
Definition record_error (criteria : gmap string EntityField.t)
    (errors : gmap string bool) (key : string) : gmap string bool :=
  if bool_decide (key ≠ "set") && bool_decide (key ≠ "clear") then
    match criteria !! key with
    | Some entry => <[key := entry_in_error entry]> errors
    | None => errors
    end
  else errors.

Definition criteriaErrors this : gmap string bool :=
  let criteria := default ∅ (Store.criteria this) in
  foldl (record_error criteria) ∅ (keys criteria).

(** Modelled from the spec: [toFlatValues] of [../entity] is not part of the
    sources; it gives the plain values of a criteria node, field by field,
    without the node's own members [set] and [clear]. *)
Definition toFlatValues (node : gmap string EntityField.t)
    : gmap string value :=
  EntityField.value <$>
    filter (λ entry, entry.1 ≠ "set" ∧ entry.1 ≠ "clear") node.

(** The first loop of [flatCriteria]: drop the criteria in error. *)
Definition drop_error (errors : gmap string bool)
    (criteria : gmap string value) (error : string) : gmap string value :=
  match errors !! error with
  | Some true => delete error criteria
  | _ => criteria
  end.

Definition drop_errors (errors : gmap string bool)
    (criteria : gmap string value) : gmap string value :=
  foldl (drop_error errors) criteria (keys errors).

(** The second loop: drop the criteria that are [""] or [undefined]. *)
Definition drop_if_blank (criteria : gmap string value) (criteriaKey : string)
    : gmap string value :=
  match criteria !! criteriaKey with
  | Some (VStr "") | Some VUndefined | None => delete criteriaKey criteria
  | Some _ => criteria
  end.

Definition drop_blank (criteria : gmap string value) : gmap string value :=
  foldl drop_if_blank criteria (keys criteria).

Definition flatCriteria this : gmap string value :=
  match toFlatValues <$> Store.criteria this with
  | Some criteria => drop_blank (drop_errors (criteriaErrors this) criteria)
  | None => ∅
  end.

(** ** Actions *)

(** What an action runs in: the store, and the requests the service has
    received so far. *)
Record World : Type := {
  store : Store.t T;
  calls : list QueryInput.t;
}.

(** An action ends normally or abruptly; either way it leaves a world. *)
Definition Action (A : Type) : Type := World → completion A * World.

#[local] Instance Action_ret : MRet Action := λ A a w, (Normal a, w).

#[local] Instance Action_bind : MBind Action := λ A B f m w,
  match m w with
  | (Normal a, w') => f a w'
  | (Abrupt e, w') => (Abrupt e, w')
  end.

Definition get_this : Action (Store.t T) := λ w, (Normal (store w), w).

Definition update (f : Store.t T → Store.t T) : Action unit :=
  λ w, (Normal tt, {| store := f (store w); calls := calls w |}).

(** [await this.service(data)]: the service receives the request; a
    rejected promise is thrown at the [await]. *)
Definition await_service (data : QueryInput.t) : Action (QueryOutput.t T) :=
  λ w,
    let w' := {| store := store w; calls := calls w ++ [data] |} in
    match Store.service (store w) data with
    | Fulfilled response => (Normal response, w')
    | Rejected reason => (Abrupt (Rejection reason), w')
    end.

(** The request object [data] of [search]. [selectedFacets] is always an
    object in the model, so [selectedFacets || {}] is [selectedFacets]. *)
Definition search_data (isScroll : bool) this : QueryInput.t :=
  let query :=
    match Store.query this with
    | Some query => if string_truthy query then query else "*"
    | None => "*"
    end in
  let list := Store.list this in
  {| QueryInput.criteria := <["query" := VStr query]> (flatCriteria this);
     QueryInput.facets := Store.selectedFacets this;
     QueryInput.group :=
       match Store.groupingKey this with
       | Some groupingKey =>
           if string_truthy groupingKey then groupingKey else ""
       | None => ""
       end;
     QueryInput.skip :=
       if isScroll && negb (Nat.eqb (length list) 0)
       then length list else 0;
     QueryInput.sortDesc :=
       match Store.sortAsc this with
       | None => false
       | Some sortAsc => negb sortAsc
       end;
     QueryInput.sortFieldName := Store.sortBy this;
     QueryInput.top := Store.top this |}.

(** [response.list = [...list, ...response.list]], where [list] is the
    store's own array, read when the response arrives. *)
Definition extend_list (isScroll : bool) (list : list T)
    (response : QueryOutput.t T) : QueryOutput.t T :=
  match isScroll, QueryOutput.list response with
  | true, Some response_list =>
      {| QueryOutput.list := Some (list ++ response_list);
         QueryOutput.groups := QueryOutput.groups response;
         QueryOutput.facets := QueryOutput.facets response;
         QueryOutput.totalCount := QueryOutput.totalCount response |}
  | _, _ => response
  end.

(** [search(isScroll)]. The result is [None] for the [undefined] of the
    blocked case. The promise of the service is taken as settled: the call
    runs from the request to the end of its continuation, with no other
    action of the store in between. *)
Definition search (isScroll : bool) : Action (option (QueryOutput.t T)) :=
  this ← get_this;
  if Store.blockSearch this then mret None
  else
    let data := search_data isScroll this in
    update (λ this, set_pendingCount (Store.pendingCount this + 1)%Z this);;
    update (set_selectedList []);;
    response ← await_service data;
    update (λ this, set_pendingCount (Store.pendingCount this - 1)%Z this);;
    this ← get_this;
    let response := extend_list isScroll (Store.list this) response in
    update (set_results (QueryOutput.facets response)
                        (default [] (QueryOutput.list response))
                        (default [] (QueryOutput.groups response))
                        (QueryOutput.totalCount response));;
    mret (Some response).

(** The store a call to [search] leaves when the service answers. *)
Definition settled_store (isScroll : bool) (response : QueryOutput.t T) this
    : Store.t T :=
  let this1 :=
    set_selectedList []
      (set_pendingCount (Store.pendingCount this + 1)%Z this) in
  let this2 :=
    set_pendingCount (Store.pendingCount this1 - 1)%Z this1 in
  let response' := extend_list isScroll (Store.list this2) response in
  set_results (QueryOutput.facets response')
    (default [] (QueryOutput.list response'))
    (default [] (QueryOutput.groups response'))
    (QueryOutput.totalCount response') this2.

(** [clear()] *)
Definition clear this : Store.t T :=
  set_results [] [] [] 0%float this.

(** [toggleAll()] *)
Definition toggleAll this : Store.t T :=
  if Nat.eqb (length (selectedItems this)) (currentCount this)
  then set_selectedList [] this
  else set_selectedList (flatResultList this) this.

(** [setProperties(props)] *)
Definition setProperties (props : SearchProperties.t) this : Store.t T :=
  {| Store.groupingKey :=
       match SearchProperties.groupingKey props with
       | Some groupingKey => groupingKey
       | None => Store.groupingKey this
       end;
     Store.selectedFacets :=
       match SearchProperties.selectedFacets props with
       | Some (Some selectedFacets) => selectedFacets
       | _ => Store.selectedFacets this
       end;
     Store.sortAsc :=
       match SearchProperties.sortAsc props with
       | Some (Some sortAsc) => Some sortAsc
       | _ => Store.sortAsc this
       end;
     Store.sortBy :=
       match SearchProperties.sortBy props with
       | Some sortBy => sortBy
       | None => Store.sortBy this
       end;
     Store.query :=
       match SearchProperties.query props with
       | Some (Some query) =>
           if string_truthy query then Some query else Store.query this
       | _ => Store.query this
       end;
     Store.top :=
       match SearchProperties.top props with
       | Some (Some top) =>
           if number_truthy top then Some top else Store.top this
       | _ => Store.top this
       end;
     Store.selectedList := Store.selectedList this;
     Store.pendingCount := Store.pendingCount this;
     Store.serverCount := Store.serverCount this;
     Store.blockSearch := Store.blockSearch this;
     Store.criteria := Store.criteria this;
     Store.facets := Store.facets this;
     Store.list := Store.list this;
     Store.groups := Store.groups this;
     Store.service := Store.service this |}.

(** ** The view on one group *)

(** [selectedList.remove(item)]: the first occurrence goes. *)
Fixpoint remove_first (item : T) (l : list T) : list T :=
  match l with
  | [] => []
  | x :: l => if decide (item = x) then l else x :: remove_first item l
  end.

Inductive SelectionStatus : Type :=
  | StatusNone
  | StatusPartial
  | StatusSelected.

(** The object [getSearchGroupStore] returns. Its members are getters and
    functions closed over the store, so each is a function of the store's
    current state. Its [toggle] hands over to the [toggle] of
    [ListStoreBase], which the sources do not include. *)
Record MiniListStore : Type := {
  view_currentCount : Store.t T → completion number;
  view_totalCount : Store.t T → completion number;
  view_list : Store.t T → list T;
  view_toggleAll : Store.t T → Store.t T;
  view_selectedItems : Store.t T → list T;
  view_selectionStatus : Store.t T → completion SelectionStatus;
}.

(** [store.groups.find(result => result.code === groupCode)] *)
Definition find_group (groupCode : string) this : option (GroupResult.t T) :=
  find (λ result, bool_decide (GroupResult.code result = groupCode))
       (Store.groups this).

(** [find(…).totalCount || 0]: the member access on [undefined] throws. *)
Definition group_totalCount (groupCode : string) this : completion number :=
  match find_group groupCode this with
  | Some result => Normal (number_or (Some (GroupResult.totalCount result)) 0)
  | None => Abrupt (TypeError "Cannot read property 'totalCount' of undefined")
  end.

(** [resultGroup && resultGroup.list || []] *)
Definition group_list (groupCode : string) this : list T :=
  match find_group groupCode this with
  | Some resultGroup => GroupResult.list resultGroup
  | None => []
  end.

(** The [forEach] of the view's [toggleAll]. *)
Definition unselect_each (items : list T) this : Store.t T :=
  foldl (λ this item,
           if bool_decide (item ∈ selectedItems this)
           then set_selectedList (remove_first item (Store.selectedList this))
                                 this
           else this)
        this items.

Definition group_toggleAll (groupCode : string) this : Store.t T :=
  let list := group_list groupCode this in
  let areAllItemsIn :=
    forallb (λ item, bool_decide (item ∈ selectedItems this)) list in
  let this := unselect_each list this in
  if negb areAllItemsIn
  then set_selectedList (Store.selectedList this ++ list) this
  else this.

(** [new Set(store.selectedList.filter(item => list.find(i => i === item)))] *)
Definition group_selectedItems (groupCode : string) this : list T :=
  remove_dups
    (filter (λ item, item ∈ group_list groupCode this)
            (Store.selectedList this)).

(** [selectionStatus]: [totalCount] is read only when something is
    selected. *)
Definition group_selectionStatus (groupCode : string) this
    : completion SelectionStatus :=
  let size := length (group_selectedItems groupCode this) in
  if Nat.eqb size 0 then Normal StatusNone
  else
    match group_totalCount groupCode this with
    | Normal totalCount =>
        Normal (if PrimFloat.eqb (number_of_nat size) totalCount
                then StatusSelected else StatusPartial)
    | Abrupt e => Abrupt e
    end.

Definition getSearchGroupStore (groupCode : string) : MiniListStore :=
  {| view_currentCount := group_totalCount groupCode;
     view_totalCount := group_totalCount groupCode;
     view_list := group_list groupCode;
     view_toggleAll := group_toggleAll groupCode;
     view_selectedItems := group_selectedItems groupCode;
     view_selectionStatus := group_selectionStatus groupCode |}.

End SearchStore.
End SearchStore.

(* ===================================================================== *)
(** * Concrete hosts, stores and requests *)
(* ===================================================================== *)

Module Examples.

(** Reads an unsigned decimal integer; [None] on any other string. *)
Fixpoint read_digits (s : string) (acc : nat) : option nat :=
  match s with
  | EmptyString => Some acc
  | String c s =>
      let d := Ascii.nat_of_ascii c in
      if (48 <=? d)%nat && (d <=? 57)%nat
      then read_digits s (10 * acc + (d - 48))%nat
      else None
  end.

Section Builders.
Context `{host : Host}.

Definition property (v : value) : Validation.ValidationProperty :=
  {| Validation.modelName := None; Validation.name := ""; Validation.value := v |}.

Definition number_between (lo hi : option number) : Validation.Validator :=
  Validation.NumberValidator
    (Some {| Validation.number_translationKey := None;
             Validation.min := lo; Validation.max := hi |}).

Definition required : Validation.Validator :=
  Validation.RequiredValidator true None.

Definition field (validators : option (list Validation.Validator)) (v : value)
    : EntityField.t :=
  {| EntityField.domain := Some {| EntityField.validator := validators |};
     EntityField.value := v |}.

Definition response_of (l : option (list nat)) : QueryOutput.t nat :=
  {| QueryOutput.list := l; QueryOutput.groups := None;
     QueryOutput.facets := []; QueryOutput.totalCount := 0%float |}.

(** A store over items identified by natural numbers. *)
Definition store_of (criteria : option (gmap string EntityField.t))
    (sortAsc : option bool) (blockSearch : bool)
    (selectedList items : list nat) (groups : list (GroupResult.t nat))
    (service : QueryInput.t → Settled (QueryOutput.t nat)) : Store.t nat :=
  {| Store.query := Some ""; Store.sortAsc := sortAsc; Store.sortBy := None;
     Store.top := Some 50%float; Store.selectedList := selectedList;
     Store.pendingCount := 0%Z; Store.serverCount := 0%float;
     Store.blockSearch := blockSearch; Store.criteria := criteria;
     Store.groupingKey := None; Store.selectedFacets := ∅;
     Store.facets := []; Store.list := items; Store.groups := groups;
     Store.service := service |}.

Definition group_of (code : string) (items : list nat) : GroupResult.t nat :=
  {| GroupResult.code := code; GroupResult.label := code;
     GroupResult.list := items;
     GroupResult.totalCount := number_of_nat (length items) |}.

(** The criteria [{age: "", city: "Paris"}]; [age] has the given domain,
    [city] has none. *)
Definition age_city (age_domain : option EntityField.Domain)
    : gmap string EntityField.t :=
  <["age" := {| EntityField.domain := age_domain;
                EntityField.value := VStr "" |}]>
    (<["city" := {| EntityField.domain := None;
                    EntityField.value := VStr "Paris" |}]> ∅).

(** A required criterion left at [null]. *)
Definition required_null : gmap string EntityField.t :=
  <["scope" := field (Some [required]) VNull]> ∅.

(** A service that answers every request with the same list, and one that
    rejects every request. *)
Definition answers (l : option (list nat))
    : QueryInput.t → Settled (QueryOutput.t nat) :=
  λ _, Fulfilled (response_of l).

Definition refuses : QueryInput.t → Settled (QueryOutput.t nat) :=
  λ _, Rejected (VStr "unavailable").

Definition world_of (this : Store.t nat) : SearchStore.World :=
  {| SearchStore.store := this; SearchStore.calls := [] |}.

(** A store holding the items [1] and [2], none selected but [2]. *)
Definition two_items (sortAsc : option bool) (blockSearch : bool)
    (service : QueryInput.t → Settled (QueryOutput.t nat)) : Store.t nat :=
  store_of None sortAsc blockSearch [2] [1; 2] [] service.

(** A store sorted by [name], ascending, with the query [paris]. *)
Definition sorted_by_name : Store.t nat :=
  {| Store.query := Some "paris"; Store.sortAsc := Some true;
     Store.sortBy := Some "name"; Store.top := Some 50%float;
     Store.selectedList := []; Store.pendingCount := 0%Z;
     Store.serverCount := 0%float; Store.blockSearch := false;
     Store.criteria := None; Store.groupingKey := None;
     Store.selectedFacets := ∅; Store.facets := []; Store.list := [];
     Store.groups := []; Store.service := refuses |}.

(** A store whose only criterion is [required_null]. *)
Definition with_required_null : Store.t nat :=
  store_of (Some required_null) None false [] [] [] refuses.

(** A store whose results come in the groups [a] and [b]. *)
Definition grouped (selectedList : list nat) : Store.t nat :=
  store_of None None false selectedList []
    [group_of "a" [1; 2]; group_of "b" [3; 4; 5]] refuses.

End Builders.

(** A host that agrees with ECMAScript on the strings the examples use:
    digit strings convert to their integer, ["abc"] to NaN. Labels are left
    untranslated, regular expressions and dates accept everything. *)
Definition decimal_host : Host := {|
  RegExp := string;
  RegExp_test := λ _ _, true;
  EMAIL_REGEX := "";
  StringToNumber := λ s,
    match s with
    | EmptyString => 0%float
    | _ => match read_digits s 0 with
           | Some n => number_of_nat n
           | None => nan
           end
    end;
  moment_isValid := λ _, true;
  translate := λ key, key;
|}.

End Examples.

(* ===================================================================== *)
(** * The specification's vocabulary *)
(* ===================================================================== *)

Section Vocabulary.
Context `{host : Host}.

(** A validator fails on a property when its check answers [false]. *)
Definition fails (property : Validation.ValidationProperty)
    (validator : Validation.Validator) : Prop :=
  Validation.isValid_of property validator = Some false.

#[global] Instance fails_dec property validator :
  Decision (fails property validator).
Proof. unfold fails. apply _. Defined.

(** The message a failing validator contributes. *)
Definition error_label (property : Validation.ValidationProperty)
    (validator : Validation.Validator) : string :=
  Validation.getErrorLabel (Validation.validator_type validator)
    (Validation.fieldName_of property) (Validation.validator_options validator).

(** A criterion currently fails its configured validators when it has a
    validator list and [validate] reports an error for its value. *)
Definition fails_validators (entry : EntityField.t) : Prop :=
  ∃ validators,
    EntityField.domain entry ≫= EntityField.validator = Some validators ∧
    Validation.errors
      (Validation.validate
         {| Validation.modelName := None; Validation.name := "";
            Validation.value := EntityField.value entry |}
         (Some validators)) ≠ [].

(** A criterion is blank when its value is [""] or [undefined]. *)
Definition blank (v : value) : Prop := v = VStr "" ∨ v = VUndefined.

(** The fields of a criteria node, its members [set] and [clear] apart. *)
Definition criteria_field {T : Type} (this : Store.t T) (key : string)
    (entry : EntityField.t) : Prop :=
  ∃ node, Store.criteria this = Some node ∧ node !! key = Some entry ∧
          key ≠ "set" ∧ key ≠ "clear".

(** What the second loop of [flatCriteria] leaves of a value. *)
Definition unless_blank (o : option value) : option value :=
  match o with
  | Some (VStr "") | Some VUndefined | None => None
  | Some v => Some v
  end.

End Vocabulary.

Arguments unless_blank : simpl never.

(* ===================================================================== *)
(** * The constructor of the store *)
(* ===================================================================== *)

(** The part of a store that [super()] sets up. Its initial values belong to
    [ListStoreBase] and are whatever that class gives them. *)
Module ListStoreBase.
Record t (T : Type) : Type := {
  query : option string;
  sortAsc : option bool;
  sortBy : option string;
  top : option number;
  selectedList : list T;
  pendingCount : Z;
  serverCount : number;
}.
Arguments query {T} _.
Arguments sortAsc {T} _.
Arguments sortBy {T} _.
Arguments top {T} _.
Arguments selectedList {T} _.
Arguments pendingCount {T} _.
Arguments serverCount {T} _.
End ListStoreBase.

Module Constructor.
Section Constructor.
Context `{host : Host} {T C Entity : Type}.

(** [buildEntityEntry({criteria: {}}, {criteria: entity}, {}, "criteria")]
    of [../entity], which the sources do not include: the node built from a
    criteria description. *)
Variable buildEntityEntry : Entity → gmap string EntityField.t.

(** The second and the third parameter: left out, the initial query (an
    object, with its optional [debounceCriteria]), or the criteria
    description (the array [[C, Entity]]). *)
Inductive Param : Type :=
  | Undefined
  | InitialQuery (initialQuery : SearchProperties.t)
                 (debounceCriteria : option bool)
  | Criteria (prototype : C) (entity : Entity).

(** [!Array.isArray(param) && param], [None] when the result is falsy. *)
Definition non_array (param : Param)
    : option (SearchProperties.t * option bool) :=
  match param with
  | InitialQuery initialQuery debounceCriteria =>
      Some (initialQuery, debounceCriteria)
  | Undefined | Criteria _ _ => None
  end.

(** [Array.isArray(param) && param], [None] when the result is falsy. *)
Definition array (param : Param) : option (C * Entity) :=
  match param with
  | Criteria prototype entity => Some (prototype, entity)
  | Undefined | InitialQuery _ _ => None
  end.

(** [a || b] on two such results. *)
Definition or_else {A : Type} (a b : option A) : option A :=
  match a with Some _ => a | None => b end.

Definition initialQuery (secondParam thirdParam : Param)
    : option (SearchProperties.t * option bool) :=
  or_else (non_array secondParam) (non_array thirdParam).

Definition criteria (secondParam thirdParam : Param) : option (C * Entity) :=
  or_else (array secondParam) (array thirdParam).

(** The object after [super()], the field initialisers and
    [this.service = service]. *)
Definition initialised (base : ListStoreBase.t T)
    (service : QueryInput.t → Settled (QueryOutput.t T)) : Store.t T :=
  {| Store.query := ListStoreBase.query base;
     Store.sortAsc := ListStoreBase.sortAsc base;
     Store.sortBy := ListStoreBase.sortBy base;
     Store.top := ListStoreBase.top base;
     Store.selectedList := ListStoreBase.selectedList base;
     Store.pendingCount := ListStoreBase.pendingCount base;
     Store.serverCount := ListStoreBase.serverCount base;
     Store.blockSearch := false;
     Store.criteria := None;
     Store.groupingKey := None;
     Store.selectedFacets := ∅;
     Store.facets := [];
     Store.list := [];
     Store.groups := [];
     Store.service := service |}.

(** [this.criteria = …] *)
Definition set_criteria (criteria : option (gmap string EntityField.t))
    (this : Store.t T) : Store.t T :=
  {| Store.query := Store.query this;
     Store.sortAsc := Store.sortAsc this;
     Store.sortBy := Store.sortBy this;
     Store.top := Store.top this;
     Store.selectedList := Store.selectedList this;
     Store.pendingCount := Store.pendingCount this;
     Store.serverCount := Store.serverCount this;
     Store.blockSearch := Store.blockSearch this;
     Store.criteria := criteria;
     Store.groupingKey := Store.groupingKey this;
     Store.selectedFacets := Store.selectedFacets this;
     Store.facets := Store.facets this;
     Store.list := Store.list this;
     Store.groups := Store.groups this;
     Store.service := Store.service this |}.

(** The constructor, up to the two [reaction]s it registers: they run
    nothing until a member changes, and [debounceCriteria] only chooses
    which of the two watches the criteria. *)
Definition constructor (base : ListStoreBase.t T)
    (service : QueryInput.t → Settled (QueryOutput.t T))
    (secondParam thirdParam : Param) : Store.t T :=
  let this := initialised base service in
  let this :=
    match initialQuery secondParam thirdParam with
    | Some (initialQuery, _) => SearchStore.setProperties initialQuery this
    | None => this
    end in
  match criteria secondParam thirdParam with
  | Some (_, entity) => set_criteria (Some (buildEntityEntry entity)) this
  | None => this
  end.

End Constructor.
End Constructor.

(* ===================================================================== *)
(** * list-selection.tsx *)
(* ===================================================================== *)

Module ListSelection.
Section ListSelection.
Context {T : Type}.

(** The [idField] of the component: the prop, or its default. *)
Variable idField : T → string.

(** A value of the map [items]. *)
Record Entry : Type := {
  item : T;
  selected : bool;
}.

(** The observable map [items]: its keys with their values, in the order
    the keys were first set. *)
Definition ObservableMap : Type := list (string * Entry).

(** [items.get(key)], [None] for [undefined]. *)
Fixpoint get (key : string) (items : ObservableMap) : option Entry :=
  match items with
  | [] => None
  | (k, entry) :: items =>
      if bool_decide (k = key) then Some entry else get key items
  end.

(** [items.has(key)] *)
Definition has (key : string) (items : ObservableMap) : bool :=
  match get key items with Some _ => true | None => false end.

(** [items.set(key, entry)]: a known key keeps its place, a new one goes
    last. *)
Fixpoint set (key : string) (entry : Entry) (items : ObservableMap)
    : ObservableMap :=
  match items with
  | [] => [(key, entry)]
  | (k, e) :: items =>
      if bool_decide (k = key) then (k, entry) :: items
      else (k, e) :: set key entry items
  end.

(** The props the selection logic reads. [observable] says whether
    [values] is an observable array. *)
Record Props : Type := {
  selectionStatus : option SearchStore.SelectionStatus;
  values : option (list T);
  observable : bool;
}.

(** [selectionStatus === "partial"] and [selectionStatus === "selected"] *)
Definition is_partial (status : option SearchStore.SelectionStatus) : bool :=
  match status with Some SearchStore.StatusPartial => true | _ => false end.

Definition is_selected (status : option SearchStore.SelectionStatus) : bool :=
  match status with Some SearchStore.StatusSelected => true | _ => false end.

(** The body of the loop of [updateItems]. The test reads the
    [selectionStatus] it was given, the new entry reads the one of
    [this.props]. *)
Definition update_item (this_props : Props)
    (selectionStatus : option SearchStore.SelectionStatus)
    (items : ObservableMap) (item : T) : ObservableMap :=
  let key := idField item in
  if negb (has key items && is_partial selectionStatus)
  then set key {| item := item;
                  selected := is_selected (ListSelection.selectionStatus this_props) |}
           items
  else items.

(** [updateItems({selectionStatus, values})] *)
Definition updateItems (this_props : Props) (props : Props)
    (items : ObservableMap) : ObservableMap :=
  match values props with
  | Some values =>
      foldl (update_item this_props (selectionStatus props)) items values
  | None => items
  end.

(** [componentWillReact()] *)
Definition componentWillReact (this_props : Props) (items : ObservableMap)
    : ObservableMap :=
  if observable this_props then updateItems this_props this_props items
  else items.

(** [componentWillReceiveProps(props)] *)
Definition componentWillReceiveProps (this_props props : Props)
    (items : ObservableMap) : ObservableMap :=
  if negb (observable this_props) then updateItems this_props props items
  else items.

(** [getSelectedItems()] *)
Definition getSelectedItems (items : ObservableMap) : list T :=
  foldl (λ selectedItems entry,
           if selected entry.2 then selectedItems ++ [item entry.2]
           else selectedItems)
        [] items.

(** [handleLineSelection(item, selected, isInit)]: the map afterwards, and
    the arguments [onSelection] is called with, if it is called.
    [has_onSelection] says whether the prop is there. *)
Definition handleLineSelection (has_onSelection : bool) (item : T)
    (selected : bool) (isInit : option bool) (items : ObservableMap)
    : ObservableMap * option (T * bool) :=
  (set (idField item) {| item := item; selected := selected |} items,
   if has_onSelection && negb (default false isInit)
   then Some (item, selected) else None).

(** The map as the component keeps it: no key twice, and every entry under
    the key of its item. *)
Definition consistent (items : ObservableMap) : Prop :=
  NoDup items.*1 ∧ Forall (λ entry, entry.1 = idField (item entry.2)) items.

End ListSelection.
End ListSelection.

(* ===================================================================== *)
(** * More vocabulary and concrete data *)
(* ===================================================================== *)

Section MoreVocabulary.
Context `{host : Host}.

(** A descriptor of none of the seven kinds. *)
Definition unknown_kind (validator : Validation.Validator) : Prop :=
  match validator with
  | Validation.UnknownValidator _ _ => True
  | _ => False
  end.

#[global] Instance unknown_kind_dec validator : Decision (unknown_kind validator).
Proof. destruct validator; cbn; apply _. Defined.

(** A value that is missing: [null] or [undefined]. *)
Definition missing (v : value) : Prop := v = VNull ∨ v = VUndefined.

End MoreVocabulary.

Module MoreExamples.

(** The property [age] of the model [user]. *)
Definition user_age (v : value) : Validation.ValidationProperty :=
  {| Validation.modelName := Some "user"; Validation.name := "age";
     Validation.value := v |}.

(** Lines identified by their own text. *)
Definition line (text : string) (selected : bool)
    : ListSelection.Entry (T:=string) :=
  {| ListSelection.item := text; ListSelection.selected := selected |}.

Definition props_of (status : option SearchStore.SelectionStatus)
    (values : list string) : ListSelection.Props (T:=string) :=
  {| ListSelection.selectionStatus := status;
     ListSelection.values := Some values;
     ListSelection.observable := false |}.

(** The map holding the line [a], selected. *)
Definition only_a : ListSelection.ObservableMap (T:=string) :=
  [("a", line "a" true)].

End MoreExamples.

(* ===================================================================== *)
(** * Properties of the validation engine *)
(* ===================================================================== *)

Section ValidationFacts.
Context `{host : Host}.
Implicit Types (property : Validation.ValidationProperty)
               (validators : list Validation.Validator).

Lemma validate_loop_acc property validators acc :
  Validation.validate_loop property validators acc
  = acc ++ omap (Validation.validateProperty property) validators.
Proof.
  unfold Validation.validate_loop.
  revert acc. induction validators as [|validator validators IH]; intros acc.
  - by rewrite app_nil_r.
  - simpl. rewrite IH.
    destruct (Validation.validateProperty property validator); [|done].
    by rewrite <- app_assoc.
Qed.

Lemma validateProperty_fails property validator :
  fails property validator →
  Validation.validateProperty property validator
  = Some (error_label property validator).
Proof. unfold fails, Validation.validateProperty. by intros ->. Qed.

Lemma validateProperty_passes property validator :
  ¬ fails property validator →
  Validation.validateProperty property validator = None.
Proof.
  unfold fails, Validation.validateProperty.
  destruct (Validation.isValid_of property validator) as [[]|]; naive_solver.
Qed.

Lemma omap_validateProperty property validators :
  omap (Validation.validateProperty property) validators
  = error_label property <$> filter (fails property) validators.
Proof.
  induction validators as [|validator validators IH]; [done|].
  simpl. rewrite filter_cons.
  destruct (decide (fails property validator)) as [Hf|Hf].
  - rewrite (validateProperty_fails _ _ Hf), fmap_cons. by f_equal.
  - by rewrite (validateProperty_passes _ _ Hf).
Qed.

Lemma validate_errors property validators :
  Validation.errors (Validation.validate property (Some validators))
  = error_label property <$> filter (fails property) validators.
Proof.
  unfold Validation.validate. cbn [Validation.errors].
  by rewrite validate_loop_acc, omap_validateProperty.
Qed.

Lemma validate_isValid property (validators : option (list Validation.Validator)) :
  Validation.isValid (Validation.validate property validators) = true
  ↔ Validation.errors (Validation.validate property validators) = [].
Proof.
  unfold Validation.validate. cbn [Validation.isValid Validation.errors].
  destruct (match validators with Some _ => _ | None => _ end); naive_solver.
Qed.

(** C7. [validate] runs the validators in order and collects one message
    per failing validator, all of them: [errors] is the list of the labels
    of the failing validators, in the order of the validator list, and
    [isValid] holds exactly when [errors] is empty. The three examples:
    ["abc"] against [number] is invalid (unary plus gives NaN on it), ["42"]
    against [number] with [min 0] and [max 100] is valid (unary plus gives 42
    on it), and [150] against [number] with [max 100] is invalid. *)
Theorem validate_collects_every_failure :
  (∀ property validators,
     let result := Validation.validate property (Some validators) in
     Validation.errors result
       = error_label property <$> filter (fails property) validators
     ∧ length (Validation.errors result)
       = length (filter (fails property) validators)
     ∧ (Validation.isValid result = true ↔ Validation.errors result = [])
     ∧ (Validation.isValid result = true
        ↔ Forall (λ validator, ¬ fails property validator) validators))
  ∧ (∀ modelName name,
       isNaN (StringToNumber "abc") = true →
       Validation.isValid
         (Validation.validate
            {| Validation.modelName := modelName; Validation.name := name;
               Validation.value := VStr "abc" |}
            (Some [Validation.NumberValidator None])) = false)
  ∧ (∀ modelName name,
       StringToNumber "42" = 42%float →
       Validation.isValid
         (Validation.validate
            {| Validation.modelName := modelName; Validation.name := name;
               Validation.value := VStr "42" |}
            (Some [Examples.number_between (Some 0%float) (Some 100%float)]))
       = true)
  ∧ (∀ modelName name,
       Validation.isValid
         (Validation.validate
            {| Validation.modelName := modelName; Validation.name := name;
               Validation.value := VNum 150%float |}
            (Some [Examples.number_between None (Some 100%float)]))
       = false).
Proof.
  split; [|split; [|split]].
  - intros property validators result. subst result.
    rewrite validate_isValid, validate_errors.
    split; [done|]. split; [by rewrite length_fmap|]. split; [done|].
    transitivity (filter (fails property) validators = []).
    { split; [apply fmap_nil_inv | by intros ->]. }
    induction validators as [|v vs IH].
    + split; [constructor | done].
    + rewrite filter_cons, Forall_cons.
      destruct (decide (fails property v)) as [Hf|Hf].
      * split; [done | by intros [? _]].
      * rewrite IH. split; [by split | by intros [_ ?]].
  - intros modelName name Hnan.
    unfold Validation.validate, Validation.validate_loop,
      Validation.validateProperty; cbn.
    unfold Validation.numberValidator; cbn. by rewrite Hnan.
  - intros modelName name H42.
    unfold Validation.validate, Validation.validate_loop,
      Validation.validateProperty; cbn.
    unfold Validation.numberValidator; cbn. by rewrite H42.
  - intros modelName name. reflexivity.
Qed.

End ValidationFacts.

Lemma validate_collects_every_failure_witness :
  isNaN (@StringToNumber Examples.decimal_host "abc") = true
  ∧ @StringToNumber Examples.decimal_host "42" = 42%float
  ∧ Validation.isValid
      (Validation.validate (Examples.property (VStr "abc"))
         (Some [@Validation.NumberValidator Examples.decimal_host None]))
    = false
  ∧ Validation.isValid
      (Validation.validate (Examples.property (VStr "42"))
         (Some [@Examples.number_between Examples.decimal_host
                  (Some 0%float) (Some 100%float)]))
    = true.
Proof.
  pose proof (@validate_collects_every_failure Examples.decimal_host)
    as (_ & Habc & H42 & _).
  split; [reflexivity|]. split; [reflexivity|]. split.
  - apply (Habc None ""). reflexivity.
  - apply (H42 None ""). reflexivity.
Defined.

(* ===================================================================== *)
(** * Properties of [search] *)
(* ===================================================================== *)

Section SearchFacts.
Context `{host : Host} {T : Type} `{EqDecision T}.
Implicit Types (this : Store.t T) (w : SearchStore.World (T:=T)).

Lemma search_blocked isScroll w :
  Store.blockSearch (SearchStore.store w) = true →
  SearchStore.search isScroll w = (Normal None, w).
Proof.
  intros Hblock. unfold SearchStore.search, mbind, SearchStore.Action_bind.
  cbn. by rewrite Hblock.
Qed.

Lemma search_fulfilled isScroll w response :
  Store.blockSearch (SearchStore.store w) = false →
  Store.service (SearchStore.store w)
    (SearchStore.search_data isScroll (SearchStore.store w))
  = Fulfilled response →
  SearchStore.search isScroll w
  = (Normal (Some (SearchStore.extend_list isScroll
                     (Store.list (SearchStore.store w)) response)),
     {| SearchStore.store := SearchStore.settled_store isScroll response (SearchStore.store w);
        SearchStore.calls :=
          SearchStore.calls w
          ++ [SearchStore.search_data isScroll (SearchStore.store w)] |}).
Proof.
  intros Hblock Hservice.
  unfold SearchStore.search, mbind, SearchStore.Action_bind.
  cbn. rewrite Hblock. cbn.
  unfold SearchStore.await_service. cbn. rewrite Hservice. reflexivity.
Qed.

Lemma search_rejected isScroll w reason :
  Store.blockSearch (SearchStore.store w) = false →
  Store.service (SearchStore.store w)
    (SearchStore.search_data isScroll (SearchStore.store w))
  = Rejected reason →
  SearchStore.search isScroll w
  = (Abrupt (Rejection reason),
     {| SearchStore.store :=
          SearchStore.set_selectedList []
            (SearchStore.set_pendingCount
               (Store.pendingCount (SearchStore.store w) + 1)%Z
               (SearchStore.store w));
        SearchStore.calls :=
          SearchStore.calls w
          ++ [SearchStore.search_data isScroll (SearchStore.store w)] |}).
Proof.
  intros Hblock Hservice.
  unfold SearchStore.search, mbind, SearchStore.Action_bind.
  cbn. rewrite Hblock. cbn.
  unfold SearchStore.await_service. cbn. rewrite Hservice. reflexivity.
Qed.

End SearchFacts.

Section SearchClaims.
Context `{host : Host} {T : Type} `{EqDecision T}.
Implicit Types (this : Store.t T) (w : SearchStore.World (T:=T)).

(** C5. With [blockSearch] set, [search(isScroll)] does nothing: it returns
    [undefined], the service receives no request, and the store, all of its
    fields included, is the one the call found. *)
Theorem search_blocked_is_noop isScroll w :
  Store.blockSearch (SearchStore.store w) = true →
  (SearchStore.search isScroll w).1 = Normal None
  ∧ SearchStore.calls (SearchStore.search isScroll w).2 = SearchStore.calls w
  ∧ SearchStore.store (SearchStore.search isScroll w).2 = SearchStore.store w.
Proof. intros Hblock. by rewrite (search_blocked _ _ Hblock). Qed.

(** C3, amended. A call to [search] that is not blocked sends exactly one
    request; its [sortDesc] is the negation of [sortAsc] when [sortAsc] is
    defined, and [false] (ascending) when [sortAsc] is [undefined]. *)
Theorem search_request_sortDesc isScroll w :
  Store.blockSearch (SearchStore.store w) = false →
  ∃ data,
    SearchStore.calls (SearchStore.search isScroll w).2
    = SearchStore.calls w ++ [data]
    ∧ QueryInput.sortDesc data
      = match Store.sortAsc (SearchStore.store w) with
        | Some sortAsc => negb sortAsc
        | None => false
        end.
Proof.
  intros Hblock.
  exists (SearchStore.search_data isScroll (SearchStore.store w)).
  split; [|done].
  destruct (Store.service (SearchStore.store w)
              (SearchStore.search_data isScroll (SearchStore.store w)))
    as [response|reason] eqn:Hservice.
  - by rewrite (search_fulfilled _ _ _ Hblock Hservice).
  - by rewrite (search_rejected _ _ _ Hblock Hservice).
Qed.

(** C1, amended. A call to [search] that is not blocked and that the
    service answers sends a request whose [skip] is the length of the
    store's list when [isScroll] is true and 0 when it is false. When the
    response carries a list, the list held afterwards is the old list
    followed by the response's list if [isScroll] is true, and the
    response's list alone if it is false; when the response carries no
    list, the list held afterwards is empty. *)
Theorem search_skip_and_list isScroll w response :
  Store.blockSearch (SearchStore.store w) = false →
  Store.service (SearchStore.store w)
    (SearchStore.search_data isScroll (SearchStore.store w))
  = Fulfilled response →
  ∃ data,
    SearchStore.calls (SearchStore.search isScroll w).2
    = SearchStore.calls w ++ [data]
    ∧ QueryInput.skip data
      = (if isScroll then length (Store.list (SearchStore.store w)) else 0)
    ∧ Store.list (SearchStore.store (SearchStore.search isScroll w).2)
      = match QueryOutput.list response with
        | Some response_list =>
            if isScroll
            then Store.list (SearchStore.store w) ++ response_list
            else response_list
        | None => []
        end.
Proof.
  intros Hblock Hservice.
  exists (SearchStore.search_data isScroll (SearchStore.store w)).
  rewrite (search_fulfilled _ _ _ Hblock Hservice). cbn.
  split; [done|]. split.
  - destruct isScroll; [|done]. cbn.
    by destruct (Store.list (SearchStore.store w)).
  - unfold SearchStore.settled_store, SearchStore.extend_list. cbn.
    destruct isScroll, (QueryOutput.list response) eqn:Hlist; cbn;
      by rewrite ?Hlist.
Qed.

(** C9. When the service's promise rejects, the rejection reaches the
    caller of [search]; the store keeps [pendingCount] incremented and the
    selection emptied, and [facets], [list], [groups] and [serverCount] are
    those of before the call. *)
Theorem search_rejection_leaves_pending isScroll w reason :
  Store.blockSearch (SearchStore.store w) = false →
  Store.service (SearchStore.store w)
    (SearchStore.search_data isScroll (SearchStore.store w))
  = Rejected reason →
  let this := SearchStore.store w in
  let this' := SearchStore.store (SearchStore.search isScroll w).2 in
  (SearchStore.search isScroll w).1 = Abrupt (Rejection reason)
  ∧ Store.pendingCount this' = (Store.pendingCount this + 1)%Z
  ∧ Store.selectedList this' = []
  ∧ SearchStore.selectedItems this' = []
  ∧ Store.facets this' = Store.facets this
  ∧ Store.list this' = Store.list this
  ∧ Store.groups this' = Store.groups this
  ∧ Store.serverCount this' = Store.serverCount this.
Proof.
  intros Hblock Hservice.
  by rewrite (search_rejected _ _ _ Hblock Hservice).
Qed.

End SearchClaims.

Lemma search_blocked_is_noop_witness :
  let w := Examples.world_of
             (@Examples.two_items Examples.decimal_host None true
                Examples.refuses) in
  (SearchStore.search true w).1 = Normal None
  ∧ SearchStore.calls (SearchStore.search true w).2 = []
  ∧ SearchStore.store (SearchStore.search true w).2 = SearchStore.store w.
Proof.
  apply (search_blocked_is_noop (host:=Examples.decimal_host) true). reflexivity.
Defined.

Lemma search_request_sortDesc_witness :
  ∃ data,
    SearchStore.calls
      (SearchStore.search false
         (Examples.world_of
            (@Examples.two_items Examples.decimal_host (Some false) false
               Examples.refuses))).2
    = [] ++ [data]
    ∧ QueryInput.sortDesc data = true.
Proof.
  apply (search_request_sortDesc (host:=Examples.decimal_host) false
           (Examples.world_of
              (Examples.two_items (Some false) false Examples.refuses))).
  reflexivity.
Defined.

Lemma search_skip_and_list_witness :
  ∃ data,
    SearchStore.calls
      (SearchStore.search true
         (Examples.world_of
            (@Examples.two_items Examples.decimal_host None false
               (Examples.answers (Some [3; 4]))))).2
    = [] ++ [data]
    ∧ QueryInput.skip data = 2
    ∧ Store.list
        (SearchStore.store
           (SearchStore.search true
              (Examples.world_of
                 (@Examples.two_items Examples.decimal_host None false
                    (Examples.answers (Some [3; 4]))))).2)
      = [1; 2; 3; 4].
Proof.
  apply (search_skip_and_list (host:=Examples.decimal_host) true
           (Examples.world_of
              (Examples.two_items None false
                 (Examples.answers (Some [3; 4]))))
           (Examples.response_of (Some [3; 4]))); reflexivity.
Defined.

Lemma search_rejection_leaves_pending_witness :
  let w := Examples.world_of
             (@Examples.two_items Examples.decimal_host None false
                Examples.refuses) in
  (SearchStore.search false w).1 = Abrupt (Rejection (VStr "unavailable"))
  ∧ Store.pendingCount (SearchStore.store (SearchStore.search false w).2) = 1%Z
  ∧ Store.selectedList (SearchStore.store (SearchStore.search false w).2) = [].
Proof.
  pose proof (search_rejection_leaves_pending (host:=Examples.decimal_host)
                false
                (Examples.world_of
                   (Examples.two_items None false Examples.refuses))
                (VStr "unavailable") eq_refl eq_refl)
    as (Hthrow & Hpending & Hselected & _).
  split; [exact Hthrow|]. split; [exact Hpending | exact Hselected].
Defined.

(** C3, as stated, fails: with [sortAsc] undefined the request goes out with
    [sortDesc] false, not true. *)
Lemma search_sortDesc_undefined_is_false :
  Store.sortAsc (@Examples.two_items Examples.decimal_host None false
                   Examples.refuses) = None
  ∧ QueryInput.sortDesc <$>
      SearchStore.calls
        (SearchStore.search false
           (Examples.world_of
              (@Examples.two_items Examples.decimal_host None false
                 Examples.refuses))).2
    = [false]
  ∧ QueryInput.sortDesc <$>
      SearchStore.calls
        (SearchStore.search false
           (Examples.world_of
              (@Examples.two_items Examples.decimal_host None false
                 Examples.refuses))).2
    ≠ [true].
Proof. split; [|split]; vm_compute; [reflexivity..|discriminate]. Qed.

(** C1, as stated, fails: a scroll request answered without a list leaves
    the store's list empty, not the old list followed by nothing. *)
Lemma search_scroll_without_list_empties :
  let this := @Examples.two_items Examples.decimal_host None false
                (Examples.answers None) in
  let this' :=
    SearchStore.store (SearchStore.search true (Examples.world_of this)).2 in
  Store.list this = [1; 2]
  ∧ Store.list this' = []
  ∧ Store.list this'
    ≠ Store.list this ++ default [] (QueryOutput.list (Examples.response_of None)).
Proof. split; [|split]; vm_compute; [reflexivity..|discriminate]. Qed.

(* ===================================================================== *)
(** * Properties of [setProperties] and of the selection *)
(* ===================================================================== *)

Section SelectionFacts.
Context `{host : Host} {T : Type} `{EqDecision T}.
Implicit Types (this : Store.t T) (item : T) (items : list T).

Lemma elem_of_remove_first_ne item x (l : list T) :
  item ≠ x → item ∈ SearchStore.remove_first x l ↔ item ∈ l.
Proof.
  intros Hne. induction l as [|y l IH]; [done|].
  cbn. destruct (decide (x = y)) as [->|Hxy].
  - rewrite elem_of_cons. split; [by right | by intros [?|?]].
  - by rewrite !elem_of_cons, IH.
Qed.

Lemma unselect_each_selectedList items this item :
  item ∉ items →
  item ∈ Store.selectedList (SearchStore.unselect_each items this)
  ↔ item ∈ Store.selectedList this.
Proof.
  unfold SearchStore.unselect_each.
  revert this. induction items as [|x items IH]; intros this Hnotin; [done|].
  apply not_elem_of_cons in Hnotin as [Hne Hnotin].
  cbn [foldl]. rewrite (IH _ Hnotin).
  case_bool_decide; [|done]. cbn. by apply elem_of_remove_first_ne.
Qed.

Lemma unselect_each_frame items this :
  let this' := SearchStore.unselect_each items this in
  Store.list this' = Store.list this
  ∧ Store.groups this' = Store.groups this
  ∧ Store.facets this' = Store.facets this
  ∧ Store.pendingCount this' = Store.pendingCount this
  ∧ Store.serverCount this' = Store.serverCount this
  ∧ Store.criteria this' = Store.criteria this.
Proof.
  unfold SearchStore.unselect_each.
  revert this. induction items as [|x items IH]; intros this; [done|].
  cbn [foldl]. cbn zeta in IH.
  match goal with |- context [foldl ?f ?a items] =>
    destruct (IH a) as (-> & -> & -> & -> & -> & ->) end.
  by case_bool_decide.
Qed.

Lemma find_group_none groupCode this :
  Forall (λ result, GroupResult.code result ≠ groupCode) (Store.groups this) →
  SearchStore.find_group groupCode this = None.
Proof.
  unfold SearchStore.find_group.
  induction 1 as [|result groups Hne _ IH]; [done|].
  cbn. by rewrite bool_decide_eq_false_2.
Qed.

(** C2, amended. [setProperties(props)] takes [groupingKey] and [sortBy]
    from [props] whenever the key is present, [undefined] included; it takes
    [query], [top] and [selectedFacets] only when the supplied value is
    truthy; it takes [sortAsc] whenever the supplied value is not
    [undefined], [false] included. A field whose key is absent keeps its
    value, and so does every other member of the store. In particular
    [{sortBy: undefined}] clears [sortBy] and [{query: ""}] leaves [query]
    as it is. *)
Theorem setProperties_updates (props : SearchProperties.t) this :
  let this' := SearchStore.setProperties props this in
  (∀ supplied, SearchProperties.groupingKey props = Some supplied →
               Store.groupingKey this' = supplied)
  ∧ (SearchProperties.groupingKey props = None →
     Store.groupingKey this' = Store.groupingKey this)
  ∧ (∀ supplied, SearchProperties.sortBy props = Some supplied →
                 Store.sortBy this' = supplied)
  ∧ (SearchProperties.sortBy props = None →
     Store.sortBy this' = Store.sortBy this)
  ∧ (∀ query, SearchProperties.query props = Some (Some query) →
              Store.query this'
              = if truthy (VStr query) then Some query else Store.query this)
  ∧ (SearchProperties.query props = Some None
     ∨ SearchProperties.query props = None →
     Store.query this' = Store.query this)
  ∧ (∀ top, SearchProperties.top props = Some (Some top) →
            Store.top this'
            = if truthy (VNum top) then Some top else Store.top this)
  ∧ (SearchProperties.top props = Some None
     ∨ SearchProperties.top props = None →
     Store.top this' = Store.top this)
  ∧ (∀ selectedFacets,
       SearchProperties.selectedFacets props = Some (Some selectedFacets) →
       Store.selectedFacets this' = selectedFacets)
  ∧ (SearchProperties.selectedFacets props = Some None
     ∨ SearchProperties.selectedFacets props = None →
     Store.selectedFacets this' = Store.selectedFacets this)
  ∧ (∀ sortAsc, SearchProperties.sortAsc props = Some (Some sortAsc) →
                Store.sortAsc this' = Some sortAsc)
  ∧ (SearchProperties.sortAsc props = Some None
     ∨ SearchProperties.sortAsc props = None →
     Store.sortAsc this' = Store.sortAsc this)
  ∧ (SearchProperties.sortBy props = Some None → Store.sortBy this' = None)
  ∧ (SearchProperties.query props = Some (Some "") →
     Store.query this' = Store.query this)
  ∧ Store.selectedList this' = Store.selectedList this
  ∧ Store.pendingCount this' = Store.pendingCount this
  ∧ Store.serverCount this' = Store.serverCount this
  ∧ Store.blockSearch this' = Store.blockSearch this
  ∧ Store.criteria this' = Store.criteria this
  ∧ Store.facets this' = Store.facets this
  ∧ Store.list this' = Store.list this
  ∧ Store.groups this' = Store.groups this.
Proof.
  cbn.
  repeat match goal with
         | |- _ ∧ _ => split
         | |- ∀ _, _ => intros ?
         | H : _ ∨ _ |- _ => destruct H
         | H : _ = _ |- _ => rewrite H
         end; done.
Qed.

(** C6. [toggleAll()] empties the selection when the number of selected
    items equals [currentCount]; otherwise the selection becomes the flat
    result list, so that the selected items are exactly the materialized
    results. No other member of the store changes. *)
Theorem toggleAll_clears_or_selects_all this :
  let this' := SearchStore.toggleAll this in
  (length (SearchStore.selectedItems this) = SearchStore.currentCount this →
   Store.selectedList this' = [] ∧ SearchStore.selectedItems this' = [])
  ∧ (length (SearchStore.selectedItems this) ≠ SearchStore.currentCount this →
     Store.selectedList this' = SearchStore.flatResultList this
     ∧ ∀ item, item ∈ SearchStore.selectedItems this'
               ↔ item ∈ SearchStore.flatResultList this)
  ∧ Store.list this' = Store.list this
  ∧ Store.groups this' = Store.groups this
  ∧ Store.facets this' = Store.facets this
  ∧ Store.pendingCount this' = Store.pendingCount this
  ∧ Store.serverCount this' = Store.serverCount this.
Proof.
  unfold SearchStore.toggleAll.
  destruct (Nat.eqb_spec (length (SearchStore.selectedItems this))
              (SearchStore.currentCount this)) as [Heq|Hne]; cbn.
  - repeat split; done.
  - split; [done|]. split; [|done]. intros _. split; [done|].
    intros item. unfold SearchStore.selectedItems. cbn.
    apply elem_of_remove_dups.
Qed.

(** C8. The [toggleAll] of the view on one group leaves the selection
    status of every item outside that group's list as it was: such an item
    is in the shared selection afterwards exactly when it was before, and
    in particular a selected item of another group stays selected. The
    results held by the store are untouched. *)
Theorem group_toggleAll_frame (groupCode : string) this item :
  let view := SearchStore.getSearchGroupStore groupCode in
  let this' := SearchStore.view_toggleAll view this in
  item ∉ SearchStore.view_list view this →
  (item ∈ Store.selectedList this' ↔ item ∈ Store.selectedList this)
  ∧ (item ∈ SearchStore.selectedItems this'
     ↔ item ∈ SearchStore.selectedItems this)
  ∧ Store.list this' = Store.list this
  ∧ Store.groups this' = Store.groups this.
Proof.
  cbn. intros Hnotin.
  assert (item ∈ Store.selectedList (SearchStore.group_toggleAll groupCode this)
          ↔ item ∈ Store.selectedList this) as Hlist.
  { unfold SearchStore.group_toggleAll.
    destruct (negb _); cbn.
    - rewrite elem_of_app, unselect_each_selectedList by done.
      split; [by intros [?|?] | by left].
    - by apply unselect_each_selectedList. }
  split; [done|]. split.
  { unfold SearchStore.selectedItems. by rewrite !elem_of_remove_dups. }
  unfold SearchStore.group_toggleAll.
  destruct (unselect_each_frame (SearchStore.group_list groupCode this) this)
    as (Hl & Hg & _).
  by destruct (negb _).
Qed.

(** C10. When no group of the store has the code [groupCode], reading
    [currentCount] or [totalCount] on the view throws a [TypeError] (the
    member access on the failed lookup), while reading [list] gives the
    empty list. *)
Theorem group_counts_throw_list_guarded (groupCode : string) this :
  Forall (λ result, GroupResult.code result ≠ groupCode) (Store.groups this) →
  let view := SearchStore.getSearchGroupStore groupCode in
  (∃ msg, SearchStore.view_currentCount view this = Abrupt (TypeError msg))
  ∧ (∃ msg, SearchStore.view_totalCount view this = Abrupt (TypeError msg))
  ∧ SearchStore.view_list view this = [].
Proof.
  intros Hnone. cbn.
  unfold SearchStore.group_totalCount, SearchStore.group_list.
  rewrite (find_group_none _ _ Hnone). eauto.
Qed.

End SelectionFacts.

(* ===================================================================== *)
(** * Properties of the criteria *)
(* ===================================================================== *)

Section CriteriaFacts.
Context `{host : Host} {T : Type}.
Implicit Types (this : Store.t T) (key : string).

Lemma elem_of_keys {V : Type} (object : gmap string V) key :
  key ∈ SearchStore.keys object ↔ is_Some (object !! key).
Proof.
  unfold SearchStore.keys. rewrite list_elem_of_fmap. split.
  - intros [[k v] [-> Hin]]. apply elem_of_map_to_list in Hin. by exists v.
  - intros [v Hv]. exists (key, v). split; [done|].
    by apply elem_of_map_to_list.
Qed.

Lemma record_error_lookup criteria errors k key :
  SearchStore.record_error criteria errors k !! key
  = match criteria !! key with
    | Some entry =>
        if decide (k = key ∧ key ≠ "set" ∧ key ≠ "clear")
        then Some (SearchStore.entry_in_error entry)
        else errors !! key
    | None => errors !! key
    end.
Proof.
  unfold SearchStore.record_error.
  destruct (decide (k = key)) as [->|Hne].
  - destruct (criteria !! key) as [entry|] eqn:Hkey.
    + destruct (decide (key ≠ "set")) as [Hset|Hset];
        destruct (decide (key ≠ "clear")) as [Hclear|Hclear].
      * rewrite !bool_decide_eq_true_2, decide_True by done. cbn.
        apply lookup_insert_eq.
      * rewrite (bool_decide_eq_false_2 (key ≠ "clear")) by done.
        rewrite andb_false_r, decide_False; [done|]. by intros (_ & _ & ?).
      * rewrite (bool_decide_eq_false_2 (key ≠ "set")) by done.
        rewrite decide_False; [done|]. by intros (_ & ? & _).
      * rewrite (bool_decide_eq_false_2 (key ≠ "set")) by done.
        rewrite decide_False; [done|]. by intros (_ & ? & _).
    + by destruct (_ && _).
  - assert (SearchStore.record_error criteria errors k !! key = errors !! key)
      as Hsame.
    { unfold SearchStore.record_error. destruct (_ && _); [|done].
      destruct (criteria !! k); [|done]. by apply lookup_insert_ne. }
    unfold SearchStore.record_error in Hsame. rewrite Hsame.
    destruct (criteria !! key); [|done].
    rewrite decide_False; [done|]. by intros (? & _).
Qed.

(** What a key holds after the loop of [criteriaErrors] has visited [ks]. *)
Lemma criteriaErrors_loop criteria ks errors key :
  foldl (SearchStore.record_error criteria) errors ks !! key
  = match criteria !! key with
    | Some entry =>
        if decide (key ∈ ks ∧ key ≠ "set" ∧ key ≠ "clear")
        then Some (SearchStore.entry_in_error entry)
        else errors !! key
    | None => errors !! key
    end.
Proof.
  revert errors. induction ks as [|k ks IH]; intros errors.
  - cbn. destruct (criteria !! key); [|done].
    rewrite decide_False; [done|]. intros [Hin _]. by apply elem_of_nil in Hin.
  - cbn [foldl]. rewrite IH, record_error_lookup. clear IH.
    destruct (criteria !! key) as [entry|]; [|done].
    destruct (decide (key ∈ ks ∧ key ≠ "set" ∧ key ≠ "clear"))
      as [(Hin & Hset & Hclear)|Hnot].
    { rewrite decide_True; [done|]. split; [by right | done]. }
    destruct (decide (k = key ∧ key ≠ "set" ∧ key ≠ "clear"))
      as [(-> & Hset & Hclear)|Hnot'].
    { rewrite decide_True; [done|]. split; [by left | done]. }
    rewrite decide_False; [done|]. intros (Hin & Hset & Hclear).
    apply elem_of_cons in Hin as [->|Hin]; [by apply Hnot' | by apply Hnot].
Qed.

Lemma criteriaErrors_lookup this key :
  SearchStore.criteriaErrors this !! key
  = if decide (key ≠ "set" ∧ key ≠ "clear")
    then SearchStore.entry_in_error <$> (Store.criteria this ≫= (.!! key))
    else None.
Proof.
  unfold SearchStore.criteriaErrors. rewrite criteriaErrors_loop.
  destruct (Store.criteria this) as [node|]; cbn.
  - destruct (node !! key) as [entry|] eqn:Hkey; cbn.
    + destruct (decide (key ≠ "set" ∧ key ≠ "clear")) as [[??]|Hn].
      * rewrite decide_True; [done|]. split; [|done].
        apply elem_of_keys. by exists entry.
      * rewrite decide_False; [done|]. intros (_ & ? & ?). by apply Hn.
    + by destruct (decide _).
  - rewrite lookup_empty. by destruct (decide _).
Qed.

(** What a key holds after the first loop of [flatCriteria]. *)
Lemma drop_errors_loop (errors : gmap string bool) ks
    (criteria : gmap string value) key :
  foldl (SearchStore.drop_error errors) criteria ks !! key
  = if decide (key ∈ ks ∧ errors !! key = Some true) then None
    else criteria !! key.
Proof.
  revert criteria. induction ks as [|k ks IH]; intros criteria.
  - cbn. rewrite decide_False; [done|]. intros [Hin _].
    by apply elem_of_nil in Hin.
  - cbn [foldl]. rewrite IH. clear IH.
    destruct (decide (key ∈ ks ∧ errors !! key = Some true)) as [[Hin He]|Hnot].
    { rewrite decide_True; [done|]. split; [by right | done]. }
    unfold SearchStore.drop_error.
    destruct (decide (k = key)) as [->|Hne].
    + destruct (errors !! key) as [[]|] eqn:He.
      * rewrite lookup_delete_eq, decide_True; [done|]. split; [by left|done].
      * rewrite decide_False; [done|]. by intros [_ ?].
      * rewrite decide_False; [done|]. by intros [_ ?].
    + rewrite decide_False.
      2:{ intros [Hin He]. apply Hnot.
          apply elem_of_cons in Hin as [?|?]; [congruence | done]. }
      destruct (errors !! k) as [[]|]; [|done..]. by apply lookup_delete_ne.
Qed.

Lemma drop_errors_lookup (errors : gmap string bool)
    (criteria : gmap string value) key :
  SearchStore.drop_errors errors criteria !! key
  = if decide (errors !! key = Some true) then None else criteria !! key.
Proof.
  unfold SearchStore.drop_errors. rewrite drop_errors_loop.
  destruct (decide (errors !! key = Some true)) as [He|He].
  - rewrite decide_True; [done|]. split; [|done].
    apply elem_of_keys. by rewrite He.
  - rewrite decide_False; [done|]. by intros [_ ?].
Qed.

Lemma unless_blank_idemp o : unless_blank (unless_blank o) = unless_blank o.
Proof. by destruct o as [[| | | |[|??]]|]. Qed.

Lemma drop_if_blank_lookup (criteria : gmap string value) k key :
  SearchStore.drop_if_blank criteria k !! key
  = if decide (k = key) then unless_blank (criteria !! key)
    else criteria !! key.
Proof.
  unfold SearchStore.drop_if_blank.
  destruct (decide (k = key)) as [->|Hne].
  - destruct (criteria !! key) as [[| | | |[|??]]|] eqn:Hkey; cbn;
      by rewrite ?lookup_delete_eq, ?Hkey.
  - destruct (criteria !! k) as [[| | | |[|??]]|];
      by rewrite ?lookup_delete_ne.
Qed.

Lemma drop_blank_loop ks (criteria : gmap string value) key :
  foldl SearchStore.drop_if_blank criteria ks !! key
  = if decide (key ∈ ks) then unless_blank (criteria !! key)
    else criteria !! key.
Proof.
  revert criteria. induction ks as [|k ks IH]; intros criteria.
  - cbn. rewrite decide_False; [done|]. apply not_elem_of_nil.
  - cbn [foldl]. rewrite IH, drop_if_blank_lookup. clear IH.
    destruct (decide (k = key)) as [->|Hne].
    + rewrite (decide_True (P:=key ∈ key :: ks)) by by left.
      destruct (decide (key ∈ ks)); [apply unless_blank_idemp | done].
    + destruct (decide (key ∈ ks)) as [Hin|Hnotin].
      * rewrite decide_True; [done | by right].
      * rewrite decide_False; [done|].
        intros [?|?]%elem_of_cons; [congruence | done].
Qed.

Lemma drop_blank_lookup (criteria : gmap string value) key :
  SearchStore.drop_blank criteria !! key = unless_blank (criteria !! key).
Proof.
  unfold SearchStore.drop_blank. rewrite drop_blank_loop.
  destruct (decide (key ∈ SearchStore.keys criteria)) as [Hin|Hnotin]; [done|].
  rewrite elem_of_keys in Hnotin.
  destruct (criteria !! key); [|done]. destruct Hnotin. by eexists.
Qed.

Lemma toFlatValues_lookup (node : gmap string EntityField.t) key :
  SearchStore.toFlatValues node !! key
  = if decide (key ≠ "set" ∧ key ≠ "clear")
    then EntityField.value <$> node !! key
    else None.
Proof.
  unfold SearchStore.toFlatValues. rewrite lookup_fmap, map_lookup_filter.
  destruct (node !! key) as [entry|]; cbn.
  - destruct (decide (key ≠ "set" ∧ key ≠ "clear")) as [Hk|Hk].
    + by rewrite option_guard_True.
    + by rewrite option_guard_False.
  - by destruct (decide _).
Qed.

Lemma flatCriteria_lookup this key :
  SearchStore.flatCriteria this !! key
  = node ← Store.criteria this;
    entry ← node !! key;
    if decide (key ≠ "set" ∧ key ≠ "clear") then
      if SearchStore.entry_in_error entry then None
      else unless_blank (Some (EntityField.value entry))
    else None.
Proof.
  unfold SearchStore.flatCriteria.
  destruct (Store.criteria this) as [node|] eqn:Hnode; cbn; [|done].
  rewrite drop_blank_lookup, drop_errors_lookup, criteriaErrors_lookup,
    toFlatValues_lookup, Hnode. cbn.
  destruct (node !! key) as [entry|]; cbn.
  - destruct (decide (key ≠ "set" ∧ key ≠ "clear")); cbn; [|done].
    destruct (SearchStore.entry_in_error entry); cbn; [done|].
    rewrite decide_False; [done|]. by intros [=].
  - destruct (decide (key ≠ "set" ∧ key ≠ "clear")); cbn; [|done].
    by destruct (decide _).
Qed.

Lemma length_nonzero {A : Type} (l : list A) :
  negb (Nat.eqb (length l) 0) = true ↔ l ≠ [].
Proof. by destruct l. Qed.

Lemma entry_in_error_true (entry : EntityField.t) :
  SearchStore.entry_in_error entry = true
  ↔ EntityField.value entry ≠ VUndefined ∧ EntityField.value entry ≠ VNull
    ∧ fails_validators entry.
Proof.
  unfold SearchStore.entry_in_error, fails_validators.
  destruct (EntityField.domain entry ≫= EntityField.validator)
    as [validators|].
  2:{ split; [done | by intros (_ & _ & ? & ? & _)]. }
  destruct (isUndefined (EntityField.value entry)) eqn:Hundef.
  { split; [done|]. intros (? & _). by destruct (EntityField.value entry). }
  destruct (isNull (EntityField.value entry)) eqn:Hnull.
  { split; [done|]. intros (_ & ? & _). by destruct (EntityField.value entry). }
  cbn. rewrite length_nonzero. split.
  - intros Herr. split; [by intros Hv; rewrite Hv in Hundef|].
    split; [by intros Hv; rewrite Hv in Hnull|]. by exists validators.
  - by intros (_ & _ & validators' & [= <-] & Herr).
Qed.

Lemma entry_in_error_false (entry : EntityField.t) :
  SearchStore.entry_in_error entry = false →
  EntityField.value entry = VUndefined ∨ EntityField.value entry = VNull
  ∨ ¬ fails_validators entry.
Proof.
  intros Herr.
  destruct (EntityField.value entry) eqn:Hvalue; [by left | by right; left |..].
  all: right; right; intros Hfails;
    assert (SearchStore.entry_in_error entry = true) as Htrue
      by (apply entry_in_error_true; by rewrite Hvalue);
    congruence.
Qed.

Lemma unless_blank_Some (v w : value) :
  unless_blank (Some v) = Some w ↔ v = w ∧ ¬ blank v.
Proof.
  unfold blank. split.
  - destruct v as [| | | |[|??]]; cbn; intros [= <-]; try done.
    all: split; [done | by intros [?|?]].
  - intros [<- Hblank]. destruct v as [| | | |[|??]]; cbn; try done.
    + destruct Hblank. by right.
    + destruct Hblank. by left.
Qed.

(** C4, amended. The flattened view holds exactly the criteria fields whose
    value is neither the empty string nor [undefined] and that
    [criteriaErrors] does not flag: those whose value is [null] (never
    validated) or that do not fail their configured validators. For the
    criteria [{age: "", city: "Paris"}] the view is [{city: "Paris"}]. *)
Theorem flatCriteria_contents :
  (∀ this key (v : value),
     SearchStore.flatCriteria this !! key = Some v
     ↔ ∃ entry,
         criteria_field this key entry ∧ EntityField.value entry = v
         ∧ ¬ blank v ∧ (v = VNull ∨ ¬ fails_validators entry))
  ∧ (∀ this age_domain,
       Store.criteria this = Some (Examples.age_city age_domain) →
       SearchStore.flatCriteria this = {[ "city" := VStr "Paris" ]}).
Proof.
  split.
  - intros this key v. rewrite flatCriteria_lookup. unfold criteria_field.
    destruct (Store.criteria this) as [node|]; cbn.
    2:{ split; [done | by intros (? & (? & ? & _) & _)]. }
    destruct (node !! key) as [entry|] eqn:Hkey; cbn.
    2:{ split; [done|]. intros (? & (? & [= <-] & ? & _) & _). congruence. }
    destruct (decide (key ≠ "set" ∧ key ≠ "clear")) as [[Hset Hclear]|Hn].
    2:{ split; [done|]. intros (? & (? & _ & _ & ? & ?) & _). by destruct Hn. }
    destruct (SearchStore.entry_in_error entry) eqn:Herr.
    + apply entry_in_error_true in Herr as (Hundef & Hnull & Hfails).
      split; [done|].
      intros (entry' & (node' & [= <-] & Hkey' & _) & Hv & _ & Hok).
      assert (entry' = entry) as -> by congruence.
      destruct Hok as [?|?]; [congruence | done].
    + rewrite unless_blank_Some. split.
      * intros [Hv Hblank]. exists entry. split; [by exists node|].
        split; [done|]. split; [by rewrite <- Hv|].
        destruct (entry_in_error_false _ Herr) as [Hu|[Hn|Hok]].
        -- destruct Hblank. by right.
        -- left. congruence.
        -- by right.
      * intros (entry' & (node' & [= <-] & Hkey' & _) & Hv & Hblank & _).
        assert (entry' = entry) as -> by congruence.
        split; [done | by rewrite Hv].
  - intros this age_domain Hcriteria. apply map_eq. intros key.
    rewrite flatCriteria_lookup, Hcriteria. cbn. unfold Examples.age_city.
    destruct (decide (key = "age")) as [->|Hage].
    { rewrite lookup_insert_eq. cbn.
      by destruct (SearchStore.entry_in_error _). }
    rewrite lookup_insert_ne by done.
    destruct (decide (key = "city")) as [->|Hcity].
    { by rewrite lookup_insert_eq. }
    by rewrite lookup_insert_ne, lookup_empty, lookup_singleton_ne.
Qed.
End CriteriaFacts.

(* ===================================================================== *)
(** * The theorems at concrete stores *)
(* ===================================================================== *)

Lemma setProperties_updates_witness :
  Store.sortBy
    (SearchStore.setProperties
       {| SearchProperties.query := None;
          SearchProperties.groupingKey := None;
          SearchProperties.selectedFacets := None;
          SearchProperties.sortAsc := None;
          SearchProperties.sortBy := Some None;
          SearchProperties.top := None |}
       (@Examples.sorted_by_name Examples.decimal_host)) = None
  ∧ Store.query
      (SearchStore.setProperties
         {| SearchProperties.query := Some (Some "");
            SearchProperties.groupingKey := None;
            SearchProperties.selectedFacets := None;
            SearchProperties.sortAsc := None;
            SearchProperties.sortBy := None;
            SearchProperties.top := None |}
         (@Examples.sorted_by_name Examples.decimal_host)) = Some "paris".
Proof.
  split.
  - pose proof (setProperties_updates
                  {| SearchProperties.query := None;
                     SearchProperties.groupingKey := None;
                     SearchProperties.selectedFacets := None;
                     SearchProperties.sortAsc := None;
                     SearchProperties.sortBy := Some None;
                     SearchProperties.top := None |}
                  (@Examples.sorted_by_name Examples.decimal_host))
      as (_ & _ & _ & _ & _ & _ & _ & _ & _ & _ & _ & _ & Hclear & _).
    apply Hclear. reflexivity.
  - pose proof (setProperties_updates
                  {| SearchProperties.query := Some (Some "");
                     SearchProperties.groupingKey := None;
                     SearchProperties.selectedFacets := None;
                     SearchProperties.sortAsc := None;
                     SearchProperties.sortBy := None;
                     SearchProperties.top := None |}
                  (@Examples.sorted_by_name Examples.decimal_host))
      as (_ & _ & _ & _ & _ & _ & _ & _ & _ & _ & _ & _ & _ & Hkeep & _).
    apply Hkeep. reflexivity.
Defined.

(** C2, as stated, fails: [sortAsc] is not governed by truthiness. Supplying
    [false], which is not truthy, to a store sorted ascending changes its
    [sortAsc] to [false]. *)
Lemma setProperties_takes_false_sortAsc :
  let this := @Examples.sorted_by_name Examples.decimal_host in
  let props :=
    {| SearchProperties.query := None;
       SearchProperties.groupingKey := None;
       SearchProperties.selectedFacets := None;
       SearchProperties.sortAsc := Some (Some false);
       SearchProperties.sortBy := None;
       SearchProperties.top := None |} in
  Store.sortAsc this = Some true
  ∧ Store.sortAsc (SearchStore.setProperties props this) = Some false
  ∧ ¬ (truthy (VBool false) = false →
       Store.sortAsc (SearchStore.setProperties props this)
       = Store.sortAsc this).
Proof.
  split; [reflexivity|]. split; [reflexivity|].
  intros Hclaim. specialize (Hclaim eq_refl). discriminate Hclaim.
Qed.

Lemma toggleAll_clears_or_selects_all_witness :
  SearchStore.currentCount
    (@Examples.grouped Examples.decimal_host [1; 2; 3; 4; 5]) = 5
  ∧ Store.selectedList
      (SearchStore.toggleAll
         (@Examples.grouped Examples.decimal_host [1; 2; 3; 4; 5])) = []
  ∧ Store.selectedList
      (SearchStore.toggleAll
         (@Examples.grouped Examples.decimal_host [1; 2; 3]))
    = [1; 2; 3; 4; 5].
Proof.
  split; [reflexivity|]. split.
  - pose proof (toggleAll_clears_or_selects_all
                  (@Examples.grouped Examples.decimal_host [1; 2; 3; 4; 5]))
      as (Hclear & _).
    apply Hclear. reflexivity.
  - pose proof (toggleAll_clears_or_selects_all
                  (@Examples.grouped Examples.decimal_host [1; 2; 3]))
      as (_ & Hall & _).
    apply Hall. vm_compute. discriminate.
Defined.

Lemma group_toggleAll_frame_witness :
  let this := @Examples.grouped Examples.decimal_host [1; 3] in
  let this' :=
    SearchStore.view_toggleAll (SearchStore.getSearchGroupStore "a") this in
  Store.selectedList this' = [3; 1; 2]
  ∧ (3 ∈ Store.selectedList this' ↔ 3 ∈ Store.selectedList this).
Proof.
  split; [reflexivity|].
  apply (group_toggleAll_frame "a"
           (@Examples.grouped Examples.decimal_host [1; 3]) 3).
  apply (bool_decide_unpack _). vm_compute. exact I.
Defined.

Lemma group_counts_throw_list_guarded_witness :
  let view := SearchStore.getSearchGroupStore "z" in
  let this := @Examples.grouped Examples.decimal_host [] in
  (∃ msg, SearchStore.view_currentCount view this = Abrupt (TypeError msg))
  ∧ (∃ msg, SearchStore.view_totalCount view this = Abrupt (TypeError msg))
  ∧ SearchStore.view_list view this = [].
Proof.
  apply (group_counts_throw_list_guarded "z"
           (@Examples.grouped Examples.decimal_host [])).
  apply (bool_decide_unpack _). vm_compute. exact I.
Defined.

Lemma flatCriteria_contents_witness :
  SearchStore.flatCriteria
    (@Examples.store_of Examples.decimal_host
       (Some (Examples.age_city None)) None false [] [] [] Examples.refuses)
  = {[ "city" := VStr "Paris" ]}.
Proof.
  apply (proj2 (flatCriteria_contents (host:=Examples.decimal_host) (T:=nat))
           _ None).
  reflexivity.
Defined.

(** C4, as stated, fails: a required criterion left at [null] fails its
    validator, yet [criteriaErrors] never validates a [null] value and the
    flattened view keeps the field. *)
Lemma flatCriteria_keeps_failing_null :
  let this := @Examples.with_required_null Examples.decimal_host in
  let entry := @Examples.field Examples.decimal_host
                 (Some [Examples.required]) VNull in
  criteria_field this "scope" entry
  ∧ fails_validators entry
  ∧ SearchStore.flatCriteria this !! "scope" = Some VNull
  ∧ ¬ (∀ key (v : value),
         SearchStore.flatCriteria this !! key = Some v
         ↔ ∃ entry, criteria_field this key entry
                    ∧ EntityField.value entry = v
                    ∧ ¬ blank v ∧ ¬ fails_validators entry).
Proof.
  intros this entry.
  assert (criteria_field this "scope" entry) as Hfield.
  { exists Examples.required_null.
    split; [reflexivity|]. split; [reflexivity|]. split; discriminate. }
  assert (fails_validators entry) as Hfails.
  { exists [Examples.required]. split; [reflexivity|]. vm_compute. discriminate. }
  assert (SearchStore.flatCriteria this !! "scope" = Some VNull) as Hkept.
  { vm_compute. reflexivity. }
  split; [exact Hfield|]. split; [exact Hfails|]. split; [exact Hkept|].
  intros Hclaim. apply Hclaim in Hkept as (entry' & Hfield' & _ & _ & Hok).
  apply Hok.
  destruct Hfield as (node & Hnode & Hentry & _).
  destruct Hfield' as (node' & Hnode' & Hentry' & _).
  assert (entry' = entry) as -> by congruence. exact Hfails.
Qed.

(* ===================================================================== *)
(** * More on the validators *)
(* ===================================================================== *)

Lemma leb_nan_l (x : number) : PrimFloat.leb nan x = false.
Proof. rewrite leb_spec. reflexivity. Qed.

Lemma leb_nan_r (x : number) : PrimFloat.leb x nan = false.
Proof.
  rewrite leb_spec. change (Prim2SF nan) with S754_nan.
  unfold SFleb, SFcompare. by destruct (Prim2SF x).
Qed.

Lemma omap_cons_eq {A B : Type} (f : A → option B) (x : A) (l : list A) :
  omap f (x :: l)
  = match f x with Some y => y :: omap f l | None => omap f l end.
Proof. reflexivity. Qed.

Section ValidatorFacts.
Context `{host : Host}.
Implicit Types (property : Validation.ValidationProperty)
               (validators : list Validation.Validator).

Lemma missing_spec (v : value) :
  missing v ↔ isNull v || isUndefined v = true.
Proof.
  unfold missing. destruct v; cbn; split; try done; try (by intros [?|?]).
  all: auto.
Qed.

(** X1. A property whose value is [null] or [undefined] passes every
    regex, email and number validator, whatever the pattern or the bounds,
    and fails every [required] validator whose [value] is [true]. *)
Theorem missing_value_passes_regex_email_number property :
  missing (Validation.value property) →
  (∀ validator_value options,
     Validation.isValid_of property
       (Validation.RegexValidator validator_value options) = Some true)
  ∧ (∀ options,
       Validation.isValid_of property (Validation.EmailValidator options)
       = Some true)
  ∧ (∀ options,
       Validation.isValid_of property (Validation.NumberValidator options)
       = Some true)
  ∧ (∀ options,
       Validation.isValid_of property
         (Validation.RequiredValidator true options) = Some false).
Proof.
  intros [Hv|Hv]; unfold Validation.isValid_of, Validation.numberValidator;
    rewrite Hv; cbn; done.
Qed.

(** X2. A [required] validator whose [value] is [true] fails exactly on
    [null], [undefined] and the empty string; one whose [value] is [false]
    never fails. *)
Theorem required_rejects_missing_and_empty property options :
  (fails property (Validation.RequiredValidator true options)
   ↔ missing (Validation.value property)
     ∨ Validation.value property = VStr "")
  ∧ ¬ fails property (Validation.RequiredValidator false options).
Proof.
  unfold fails, missing, Validation.isValid_of. split; [|done].
  destruct (Validation.value property) as [| | | |[|??]]; cbn.
  all: split; [intros [=] | intros [[H|H]|H]]; try done; auto.
Qed.


(** X4. On a value that is neither [null] nor [undefined], the number
    validator fails as soon as the value converts to NaN, and as soon as
    one of its bounds is NaN. *)
Theorem numberValidator_rejects_NaN property :
  ¬ missing (Validation.value property) →
  (∀ options,
     isNaN (Validation.ToNumber (Validation.value property)) = true →
     fails property (Validation.NumberValidator options))
  ∧ (∀ options,
       Validation.min options = Some nan ∨ Validation.max options = Some nan →
       fails property (Validation.NumberValidator (Some options))).
Proof.
  intros Hpresent. rewrite missing_spec in Hpresent.
  apply not_true_is_false in Hpresent.
  unfold fails, Validation.isValid_of, Validation.numberValidator.
  rewrite orb_comm, Hpresent. split.
  - by intros options ->.
  - intros options Hnan. f_equal. rewrite orb_false_r.
    destruct (isNaN _); [done|].
    destruct Hnan as [->| ->].
    + unfold ge. by rewrite leb_nan_l.
    + unfold le. rewrite leb_nan_r. apply andb_false_r.
Qed.

(** X5. Validating against two lists of validators put end to end gives
    the errors of the first list followed by those of the second, and is
    valid exactly when both are. *)
Theorem validate_app property validators1 validators2 :
  let result1 := Validation.validate property (Some validators1) in
  let result2 := Validation.validate property (Some validators2) in
  let result := Validation.validate property (Some (validators1 ++ validators2)) in
  Validation.errors result
  = Validation.errors result1 ++ Validation.errors result2
  ∧ Validation.isValid result
    = Validation.isValid result1 && Validation.isValid result2.
Proof.
  cbn zeta. unfold Validation.validate. cbn.
  rewrite !validate_loop_acc, omap_app. cbn. split; [done|].
  rewrite length_app.
  by destruct (omap _ validators1), (omap _ validators2).
Qed.

(** X6. Descriptors of an unknown kind never contribute: the errors are
    those of the list without them, and a list of unknown descriptors only
    is always valid. *)
Theorem validate_ignores_unknown_kinds property validators :
  Validation.errors (Validation.validate property (Some validators))
  = Validation.errors
      (Validation.validate property
         (Some (filter (λ validator, ¬ unknown_kind validator) validators)))
  ∧ (Forall unknown_kind validators →
     Validation.isValid (Validation.validate property (Some validators))
     = true).
Proof.
  assert (∀ vs : list Validation.Validator,
            omap (Validation.validateProperty property)
                  (filter (λ v, ¬ unknown_kind v) vs)
                = omap (Validation.validateProperty property) vs) as Hfilter.
  { induction vs as [|v vs IH]; [done|]. rewrite filter_cons.
    destruct (decide (¬ unknown_kind v)) as [Hk|Hk];
      rewrite !omap_cons_eq, IH; [done|].
    destruct v; simpl in Hk; try (destruct Hk; by intros []). done. }
  unfold Validation.validate. cbn. rewrite !validate_loop_acc. cbn.
  split; [by rewrite Hfilter|].
  intros Hall. rewrite <- Hfilter.
  replace (filter _ validators) with (@nil Validation.Validator); [done|].
  symmetry. induction Hall as [|v vs Hv _ IH]; [done|].
  rewrite filter_cons. by rewrite decide_False by (intros Hn; by apply Hn).
Qed.

(** X7. The result of [validate] depends on the value alone: two
    properties with the same value get the same errors and the same
    verdict, whatever their [name] and [modelName]. *)
Theorem validate_does_not_read_names property property'
    (supplied : option (list Validation.Validator)) :
  Validation.value property = Validation.value property' →
  let result := Validation.validate property supplied in
  let result' := Validation.validate property' supplied in
  Validation.errors result = Validation.errors result'
  ∧ Validation.isValid result = Validation.isValid result'.
Proof.
  intros Hvalue. cbn zeta.
  assert (∀ validator, Validation.validateProperty property validator
                       = Validation.validateProperty property' validator)
    as Hsame.
  { intros validator. unfold Validation.validateProperty.
    assert (Validation.isValid_of property validator
            = Validation.isValid_of property' validator) as ->.
    { unfold Validation.isValid_of. by rewrite Hvalue. }
    done. }
  unfold Validation.validate. cbn. destruct supplied as [validators|]; [|done].
  rewrite !validate_loop_acc. cbn.
  assert (omap (Validation.validateProperty property) validators
          = omap (Validation.validateProperty property') validators) as ->;
    [|done].
  induction validators as [|v vs IH]; [done|].
  by rewrite !omap_cons_eq, Hsame, IH.
Qed.

End ValidatorFacts.

(* ===================================================================== *)
(** * More on [search] *)
(* ===================================================================== *)

Section MoreSearchFacts.
Context `{host : Host} {T : Type} `{EqDecision T}.
Implicit Types (this : Store.t T) (w : SearchStore.World (T:=T)).

Lemma search_sends isScroll w :
  Store.blockSearch (SearchStore.store w) = false →
  SearchStore.calls (SearchStore.search isScroll w).2
  = SearchStore.calls w
    ++ [SearchStore.search_data isScroll (SearchStore.store w)].
Proof.
  intros Hblock.
  destruct (Store.service (SearchStore.store w)
              (SearchStore.search_data isScroll (SearchStore.store w)))
    as [response|reason] eqn:Hservice.
  - by rewrite (search_fulfilled _ _ _ Hblock Hservice).
  - by rewrite (search_rejected _ _ _ Hblock Hservice).
Qed.

Lemma flatCriteria_not_blank this key (v : value) :
  SearchStore.flatCriteria this !! key = Some v → ¬ blank v.
Proof.
  rewrite flatCriteria_lookup.
  destruct (Store.criteria this) as [node|]; [|done]. cbn.
  destruct (node !! key) as [entry|]; [|done]. cbn.
  destruct (decide _); [|done].
  destruct (SearchStore.entry_in_error entry); [done|].
  rewrite unless_blank_Some. by intros [<- ?].
Qed.

Lemma settled_store_list isScroll (response : QueryOutput.t T) this :
  Store.list (SearchStore.settled_store isScroll response this)
  = match QueryOutput.list response with
    | Some response_list =>
        if isScroll then Store.list this ++ response_list else response_list
    | None => []
    end.
Proof.
  unfold SearchStore.settled_store, SearchStore.extend_list. cbn.
  destruct isScroll, (QueryOutput.list response) eqn:Hlist; cbn;
    by rewrite ?Hlist.
Qed.

(** X8. When the service answers, [search] returns the response, whose
    list is the one the store now holds; [pendingCount] is back to its
    value of before the call, the selection is empty, [facets], [groups]
    and [serverCount] are the response's, and the criteria, the query and
    [blockSearch] are untouched. *)
Theorem search_fulfilled_settles isScroll w response :
  Store.blockSearch (SearchStore.store w) = false →
  Store.service (SearchStore.store w)
    (SearchStore.search_data isScroll (SearchStore.store w))
  = Fulfilled response →
  let this := SearchStore.store w in
  let this' := SearchStore.store (SearchStore.search isScroll w).2 in
  (∃ returned,
     (SearchStore.search isScroll w).1 = Normal (Some returned)
     ∧ default [] (QueryOutput.list returned) = Store.list this'
     ∧ QueryOutput.groups returned = QueryOutput.groups response
     ∧ QueryOutput.facets returned = QueryOutput.facets response
     ∧ QueryOutput.totalCount returned = QueryOutput.totalCount response)
  ∧ Store.pendingCount this' = Store.pendingCount this
  ∧ Store.selectedList this' = []
  ∧ Store.facets this' = QueryOutput.facets response
  ∧ Store.groups this' = default [] (QueryOutput.groups response)
  ∧ Store.serverCount this' = QueryOutput.totalCount response
  ∧ Store.criteria this' = Store.criteria this
  ∧ Store.query this' = Store.query this
  ∧ Store.blockSearch this' = false.
Proof.
  intros Hblock Hservice. cbn zeta.
  rewrite (search_fulfilled _ _ _ Hblock Hservice). cbn.
  unfold SearchStore.settled_store, SearchStore.extend_list. cbn.
  split.
  { eexists. split; [done|].
    destruct isScroll, (QueryOutput.list response); by cbn. }
  split; [lia|].
  destruct isScroll, (QueryOutput.list response); by cbn.
Qed.

(** X9. The request of a search that is not blocked always carries a
    non-empty [query] criterion: ["*"] when the store's query is
    [undefined] or empty, the store's query otherwise. Every other
    criterion comes from the flattened custom criteria (a custom criterion
    named [query] is overridden) and is neither empty nor [undefined]. *)
Theorem search_request_criteria isScroll w :
  Store.blockSearch (SearchStore.store w) = false →
  let this := SearchStore.store w in
  ∃ data query,
    SearchStore.calls (SearchStore.search isScroll w).2
    = SearchStore.calls w ++ [data]
    ∧ QueryInput.criteria data !! "query" = Some (VStr query)
    ∧ query ≠ ""
    ∧ (Store.query this = None ∨ Store.query this = Some "" → query = "*")
    ∧ (∀ q, Store.query this = Some q → q ≠ "" → query = q)
    ∧ (∀ key, key ≠ "query" →
         QueryInput.criteria data !! key
         = SearchStore.flatCriteria this !! key)
    ∧ (∀ key (v : value),
         key ≠ "query" → QueryInput.criteria data !! key = Some v → ¬ blank v).
Proof.
  intros Hblock. cbn zeta.
  exists (SearchStore.search_data isScroll (SearchStore.store w)).
  exists (match Store.query (SearchStore.store w) with
          | Some query => if string_truthy query then query else "*"
          | None => "*"
          end).
  split; [by apply search_sends|]. cbn.
  split; [by rewrite lookup_insert_eq|].
  split; [by destruct (Store.query _) as [[|??]|]|].
  split; [by intros [->| ->]|].
  split; [intros q -> Hq; by destruct q|].
  split.
  - intros key Hkey. by rewrite lookup_insert_ne.
  - intros key v Hkey. rewrite lookup_insert_ne by done.
    apply flatCriteria_not_blank.
Qed.

(** X10. Two scroll searches in a row, each answered with a list, leave
    the old list followed by both lists; the second request skips the old
    list and the first answer. *)
Theorem search_scroll_twice w response1 response2 (list1 list2 : list T) :
  let this := SearchStore.store w in
  let w1 := (SearchStore.search true w).2 in
  let w2 := (SearchStore.search true w1).2 in
  Store.blockSearch this = false →
  Store.service this (SearchStore.search_data true this)
  = Fulfilled response1 →
  QueryOutput.list response1 = Some list1 →
  Store.service this (SearchStore.search_data true (SearchStore.store w1))
  = Fulfilled response2 →
  QueryOutput.list response2 = Some list2 →
  Store.list (SearchStore.store w2) = Store.list this ++ list1 ++ list2
  ∧ ∃ data1 data2,
      SearchStore.calls w2 = SearchStore.calls w ++ [data1; data2]
      ∧ QueryInput.skip data1 = length (Store.list this)
      ∧ QueryInput.skip data2 = length (Store.list this) + length list1.
Proof.
  cbn zeta. intros Hblock Hservice1 Hlist1.
  rewrite (search_fulfilled _ _ _ Hblock Hservice1). cbn [snd SearchStore.store].
  pose proof (settled_store_list true response1 (SearchStore.store w)) as Hheld.
  rewrite Hlist1 in Hheld.
  set (this1 := SearchStore.settled_store true response1 (SearchStore.store w))
    in *.
  intros Hservice2 Hlist2.
  rewrite search_fulfilled with (response := response2); [| done | done].
  cbn [snd SearchStore.store SearchStore.calls].
  split.
  - by rewrite settled_store_list, Hlist2, Hheld, <- app_assoc.
  - eexists _, _. split; [by rewrite <- app_assoc|].
    unfold SearchStore.search_data. cbn [QueryInput.skip].
    rewrite Hheld. split.
    + by destruct (Store.list (SearchStore.store w)).
    + rewrite length_app.
      by destruct (Store.list (SearchStore.store w)), list1.
Qed.

End MoreSearchFacts.

(* ===================================================================== *)
(** * More on the selection, [clear] and [setProperties] *)
(* ===================================================================== *)

Section MoreSelectionFacts.
Context `{host : Host} {T : Type} `{EqDecision T}.
Implicit Types (this : Store.t T) (item : T) (items : list T).

Lemma remove_dups_NoDup_id (l : list T) : NoDup l → remove_dups l = l.
Proof.
  induction 1 as [|x l Hx _ IH]; [done|].
  cbn. destruct (decide_rel elem_of x l); [done|]. by rewrite IH.
Qed.

Lemma remove_dups_length_le (l : list T) :
  (length (remove_dups l) ≤ length l)%nat.
Proof.
  induction l as [|x l IH]; [done|]. cbn.
  destruct (decide_rel elem_of x l); cbn; lia.
Qed.

Lemma remove_dups_length_NoDup (l : list T) :
  length (remove_dups l) = length l → NoDup l.
Proof.
  induction l as [|x l IH]; [constructor|]. cbn.
  pose proof (remove_dups_length_le l).
  destruct (decide_rel elem_of x l); cbn; intros Hlen; [lia|].
  constructor; [done|]. apply IH. lia.
Qed.

Lemma filter_ne_id item (l : list T) :
  item ∉ l → filter (λ x, x ≠ item) l = l.
Proof.
  induction l as [|x l IH]; [done|]. intros [Hne Hl]%not_elem_of_cons.
  rewrite filter_cons_True by done. by rewrite IH.
Qed.

Lemma remove_first_NoDup item (l : list T) :
  NoDup l → SearchStore.remove_first item l = filter (λ x, x ≠ item) l.
Proof.
  induction 1 as [|x l Hx Hl IH]; [done|].
  rewrite filter_cons. cbn [SearchStore.remove_first].
  destruct (decide (item = x)) as [->|Hne].
  - rewrite decide_False by (intros Hn; by apply Hn).
    by rewrite filter_ne_id.
  - rewrite decide_True by (intros ->; by apply Hne). by rewrite IH.
Qed.

Lemma remove_first_not_in item (l : list T) :
  item ∉ l → SearchStore.remove_first item l = l.
Proof.
  induction l as [|x l IH]; [done|]. intros [Hne Hl]%not_elem_of_cons.
  cbn. rewrite decide_False by done. by rewrite IH.
Qed.

(** With a duplicate-free selection, the [forEach] of the view's
    [toggleAll] leaves exactly the selected items that are not listed. *)
Lemma unselect_each_NoDup items this :
  NoDup (Store.selectedList this) →
  Store.selectedList (SearchStore.unselect_each items this)
  = filter (λ x, x ∉ items) (Store.selectedList this).
Proof.
  unfold SearchStore.unselect_each.
  revert this. induction items as [|item items IH]; intros this Hnodup.
  - cbn. symmetry. clear Hnodup.
    induction (Store.selectedList this) as [|x l IHl]; [done|].
    rewrite filter_cons_True by apply not_elem_of_nil. by rewrite IHl.
  - cbn [foldl].
    assert (∀ l : list T,
              filter (λ x, x ∉ items) (filter (λ x, x ≠ item) l)
              = filter (λ x, x ∉ item :: items) l) as Hfilter.
    { intros l. rewrite list_filter_filter. apply list_filter_iff.
      intros x. rewrite not_elem_of_cons. tauto. }
    case_bool_decide as Hin.
    + rewrite IH; cbn.
      * by rewrite remove_first_NoDup, Hfilter.
      * rewrite remove_first_NoDup by done. by apply NoDup_filter.
    + rewrite IH by done. rewrite <- Hfilter. f_equal.
      symmetry. apply filter_ne_id.
      unfold SearchStore.selectedItems in Hin.
      by rewrite elem_of_remove_dups in Hin.
Qed.

Lemma areAllItemsIn_spec items this :
  forallb (λ item, bool_decide (item ∈ SearchStore.selectedItems this)) items
  = true
  ↔ ∀ item, item ∈ items → item ∈ Store.selectedList this.
Proof.
  unfold SearchStore.selectedItems.
  induction items as [|x items IH]; cbn.
  - split; [|done]. intros _ item Hin. by apply elem_of_nil in Hin.
  - rewrite andb_true_iff, IH, bool_decide_eq_true, elem_of_remove_dups.
    split.
    + intros [Hx Hall] item [->|Hin]%elem_of_cons; auto.
    + intros Hall. split; [apply Hall; by left|].
      intros item Hin. apply Hall. by right.
Qed.


(** X12. When everything is selected, [toggleAll()] clears the selection
    if the results hold no item twice; if they do, it cannot clear it and
    selects everything again. *)
Theorem toggleAll_after_select_all this :
  Store.selectedList this = SearchStore.flatResultList this →
  (NoDup (SearchStore.flatResultList this) →
   Store.selectedList (SearchStore.toggleAll this) = [])
  ∧ (¬ NoDup (SearchStore.flatResultList this) →
     Store.selectedList (SearchStore.toggleAll this)
     = SearchStore.flatResultList this).
Proof.
  intros Hall. unfold SearchStore.toggleAll, SearchStore.selectedItems,
    SearchStore.currentCount. rewrite Hall.
  destruct (Nat.eqb_spec (length (remove_dups (SearchStore.flatResultList this)))
              (length (SearchStore.flatResultList this))) as [Heq|Hne].
  - split; [done|]. intros Hdup. destruct Hdup.
    by apply remove_dups_length_NoDup.
  - split; [|done]. intros Hnodup. destruct Hne.
    by rewrite remove_dups_NoDup_id.
Qed.

(** X13. The [toggleAll] of a group view selects every item of the group
    when one of them is not selected. With a duplicate-free selection it
    unselects every item of the group when all are selected, and it keeps
    the selection duplicate-free if the group's list is. *)
Theorem group_toggleAll_selects_or_unselects (groupCode : string) this :
  let view := SearchStore.getSearchGroupStore groupCode in
  let this' := SearchStore.view_toggleAll view this in
  ((∃ item, item ∈ SearchStore.view_list view this
            ∧ item ∉ Store.selectedList this) →
   ∀ item, item ∈ SearchStore.view_list view this →
           item ∈ Store.selectedList this')
  ∧ (NoDup (Store.selectedList this) →
     (∀ item, item ∈ SearchStore.view_list view this →
              item ∈ Store.selectedList this) →
     ∀ item, item ∈ SearchStore.view_list view this →
             item ∉ Store.selectedList this')
  ∧ (NoDup (Store.selectedList this) →
     NoDup (SearchStore.view_list view this) →
     NoDup (Store.selectedList this')).
Proof.
  cbn. unfold SearchStore.group_toggleAll.
  set (items := SearchStore.group_list groupCode this).
  pose proof (areAllItemsIn_spec items this) as Hall.
  destruct (forallb _ items) eqn:Hb; cbn.
  - split; [|split].
    + intros (item & Hin & Hnot). destruct Hnot. by apply Hall.
    + intros Hnodup _ item Hin.
      rewrite unselect_each_NoDup, list_elem_of_filter by done.
      by intros [Hn _].
    + intros Hnodup _. rewrite unselect_each_NoDup by done.
      by apply NoDup_filter.
  - split; [|split].
    + intros _ item Hin. apply elem_of_app. by right.
    + intros _ Hin. by apply Hall in Hin.
    + intros Hnodup Hitems. rewrite unselect_each_NoDup by done.
      apply NoDup_app. split; [by apply NoDup_filter|]. split; [|done].
      intros x [Hx _]%list_elem_of_filter. done.
Qed.

(** X14. On a group code that no group has, the view's [toggleAll]
    leaves the store as it is, its selected items are empty and its
    [selectionStatus] is ["none"]: unlike the counts, none of them
    throws. *)
Theorem group_view_of_missing_group (groupCode : string) this :
  Forall (λ result, GroupResult.code result ≠ groupCode) (Store.groups this) →
  let view := SearchStore.getSearchGroupStore groupCode in
  SearchStore.view_toggleAll view this = this
  ∧ SearchStore.view_selectedItems view this = []
  ∧ SearchStore.view_selectionStatus view this
    = Normal SearchStore.StatusNone.
Proof.
  intros Hnone. cbn.
  unfold SearchStore.group_toggleAll, SearchStore.group_selectionStatus,
    SearchStore.group_selectedItems, SearchStore.group_list.
  rewrite (find_group_none _ _ Hnone). cbn.
  assert (filter (λ item, item ∈ @nil T) (Store.selectedList this) = [])
    as ->; [|done].
  induction (Store.selectedList this) as [|x l IH]; [done|].
  rewrite filter_cons_False by apply not_elem_of_nil. done.
Qed.


(** X16. [groupingLabel] is the grouping key itself when no facet has
    that code, and [undefined] when there is no grouping key; whenever it
    differs from the key, it is the non-empty label of a facet with that
    code. *)
Theorem groupingLabel_falls_back this :
  (Forall (λ facet, Some (FacetOutput.code facet) ≠ Store.groupingKey this)
     (Store.facets this) →
   SearchStore.groupingLabel this = Store.groupingKey this)
  ∧ (Store.groupingKey this = None → SearchStore.groupingLabel this = None)
  ∧ (SearchStore.groupingLabel this ≠ Store.groupingKey this →
     ∃ facet, facet ∈ Store.facets this
              ∧ Some (FacetOutput.code facet) = Store.groupingKey this
              ∧ FacetOutput.label facet ≠ ""
              ∧ SearchStore.groupingLabel this = Some (FacetOutput.label facet)).
Proof.
  unfold SearchStore.groupingLabel.
  assert (∀ facet,
            find (λ facet, bool_decide (Some (FacetOutput.code facet)
                                        = Store.groupingKey this))
                 (Store.facets this) = Some facet →
            facet ∈ Store.facets this
            ∧ Some (FacetOutput.code facet) = Store.groupingKey this) as Hfind.
  { intros facet. induction (Store.facets this) as [|f fs IH]; [done|]. cbn.
    case_bool_decide as Hcode.
    - intros [= ->]. split; [by left | done].
    - intros Hf. destruct (IH Hf). split; [by right | done]. }
  destruct (find _ (Store.facets this)) as [facet|] eqn:Hf.
  - destruct (Hfind facet eq_refl) as [Hin Hcode]. split; [|split].
    + intros Hall. rewrite Forall_forall in Hall. by destruct (Hall facet Hin).
    + intros Hnone. rewrite Hnone in Hcode. done.
    + destruct (FacetOutput.label facet) as [|c label] eqn:Hlabel; cbn;
        [done|]. intros _. exists facet. by rewrite Hlabel.
  - split; [done|]. split; done.
Qed.

(** X17. [setProperties] is idempotent: applying the same props a second
    time changes nothing. *)
Theorem setProperties_idempotent (props : SearchProperties.t) this :
  SearchStore.setProperties props (SearchStore.setProperties props this)
  = SearchStore.setProperties props this.
Proof.
  unfold SearchStore.setProperties. cbn.
  destruct props as [query groupingKey selectedFacets sortAsc sortBy top]. cbn.
  f_equal.
  - by destruct query as [[q|]|]; [destruct (string_truthy q)|..].
  - by destruct sortAsc as [[?|]|].
  - by destruct sortBy.
  - by destruct top as [[n|]|]; [destruct (number_truthy n)|..].
  - by destruct groupingKey.
  - by destruct selectedFacets as [[?|]|].
Qed.

(** X18. [setProperties] cannot clear [query], [top] or [sortAsc]: if one
    of them is defined it stays defined, and a non-empty query stays
    non-empty. *)
Theorem setProperties_never_clears (props : SearchProperties.t) this :
  let this' := SearchStore.setProperties props this in
  (is_Some (Store.query this) → is_Some (Store.query this'))
  ∧ (∀ query, Store.query this = Some query → query ≠ "" →
       ∃ query', Store.query this' = Some query' ∧ query' ≠ "")
  ∧ (is_Some (Store.top this) → is_Some (Store.top this'))
  ∧ (is_Some (Store.sortAsc this) → is_Some (Store.sortAsc this')).
Proof.
  cbn. split; [|split; [|split]].
  - intros Hsome. destruct (SearchProperties.query props) as [[q|]|]; [|done..].
    by destruct (string_truthy q).
  - intros query Hquery Hne.
    destruct (SearchProperties.query props) as [[q|]|]; [|by eauto..].
    destruct q as [|c q]; cbn; [by eauto|]. by eexists.
  - intros Hsome. destruct (SearchProperties.top props) as [[n|]|]; [|done..].
    by destruct (number_truthy n).
  - intros Hsome. by destruct (SearchProperties.sortAsc props) as [[b|]|].
Qed.

(** X19. [criteriaErrors] has an entry for exactly the fields of the
    criteria node, and the entry is [true] exactly for the fields whose
    value is neither [null] nor [undefined] and fails its validators. *)
Theorem criteriaErrors_flags this key :
  (is_Some (SearchStore.criteriaErrors this !! key)
   ↔ ∃ entry, criteria_field this key entry)
  ∧ (SearchStore.criteriaErrors this !! key = Some true
     ↔ ∃ entry, criteria_field this key entry
                ∧ ¬ missing (EntityField.value entry)
                ∧ fails_validators entry).
Proof.
  rewrite criteriaErrors_lookup. unfold criteria_field, missing.
  destruct (decide (key ≠ "set" ∧ key ≠ "clear")) as [[Hset Hclear]|Hn].
  2:{ split; (split; [by intros [??] || done|]).
      - intros (? & ? & _ & _ & ? & ?). by destruct Hn.
      - intros (? & (? & _ & _ & ? & ?) & _). by destruct Hn. }
  destruct (Store.criteria this) as [node|]; cbn.
  2:{ split; (split; [by intros [??] || done|]).
      - by intros (? & ? & ? & _).
      - by intros (? & (? & ? & _) & _). }
  destruct (node !! key) as [entry|] eqn:Hkey; cbn.
  2:{ split; (split; [by intros [??] || done|]).
      - intros (? & ? & [= <-] & ? & _). congruence.
      - intros (? & (? & [= <-] & ? & _) & _). congruence. }
  split.
  - split; [|by eauto]. intros _. exists entry, node. done.
  - split.
    + intros [= Herr]. apply entry_in_error_true in Herr as (Hu & Hn & Hf).
      exists entry. split; [by exists node|]. split; [|done].
      by intros [?|?].
    + intros (entry' & (node' & [= <-] & Hkey' & _) & Hpresent & Hfails).
      assert (entry' = entry) as -> by congruence. f_equal.
      apply entry_in_error_true. split; [|split; [|done]].
      * intros Hv. apply Hpresent. by right.
      * intros Hv. apply Hpresent. by left.
Qed.

End MoreSelectionFacts.

Section ConstructorFacts.
Context `{host : Host} {T C Entity : Type}.
Variable buildEntityEntry : Entity → gmap string EntityField.t.

Abbreviation Param := (Constructor.Param (C:=C) (Entity:=Entity)).

(** X20. The constructor takes its last two parameters in either order:
    swapping an initial query and a criteria description (or leaving one
    out) builds the same store. When both are initial queries, the third
    parameter is ignored. A new store holds no result, is not blocked and
    keeps the service it was given. *)
Theorem constructor_parameter_order (base : ListStoreBase.t T)
    (service : QueryInput.t → Settled (QueryOutput.t T))
    (secondParam thirdParam : Param) :
  let build := Constructor.constructor buildEntityEntry base service in
  ((is_Some (Constructor.non_array secondParam)
    → is_Some (Constructor.non_array thirdParam) → False) →
   (is_Some (Constructor.array secondParam)
    → is_Some (Constructor.array thirdParam) → False) →
   build secondParam thirdParam = build thirdParam secondParam)
  ∧ (is_Some (Constructor.non_array secondParam) →
     is_Some (Constructor.non_array thirdParam) →
     build secondParam thirdParam = build secondParam Constructor.Undefined)
  ∧ Store.list (build secondParam thirdParam) = []
  ∧ Store.groups (build secondParam thirdParam) = []
  ∧ Store.facets (build secondParam thirdParam) = []
  ∧ Store.blockSearch (build secondParam thirdParam) = false
  ∧ Store.service (build secondParam thirdParam) = service.
Proof.
  cbn zeta. unfold Constructor.constructor. split; [|split].
  - intros Hquery Hcriteria.
    destruct secondParam, thirdParam; cbn in *; try done.
    + destruct Hquery; by eexists.
    + destruct Hcriteria; by eexists.
  - intros Hsecond Hthird.
    destruct secondParam; try (by destruct Hsecond).
    destruct thirdParam; by destruct Hthird.
  - destruct secondParam, thirdParam; cbn; done.
Qed.

End ConstructorFacts.

(* ===================================================================== *)
(** * Properties of the selection list *)
(* ===================================================================== *)

Section ListSelectionFacts.
Context {T : Type} (idField : T → string).
Implicit Types (items : ListSelection.ObservableMap (T:=T))
               (entry : ListSelection.Entry (T:=T)) (key : string).

Lemma get_set_eq key entry items :
  ListSelection.get key (ListSelection.set key entry items) = Some entry.
Proof.
  induction items as [|[k e] items IH]; cbn.
  - by rewrite bool_decide_eq_true_2.
  - case_bool_decide as Hk; cbn.
    + by rewrite bool_decide_eq_true_2.
    + by rewrite bool_decide_eq_false_2.
Qed.

Lemma get_set_ne key key' entry items :
  key ≠ key' →
  ListSelection.get key' (ListSelection.set key entry items)
  = ListSelection.get key' items.
Proof.
  intros Hne. induction items as [|[k e] items IH]; cbn.
  - by rewrite bool_decide_eq_false_2.
  - case_bool_decide as Hk; cbn.
    + subst k. by rewrite !bool_decide_eq_false_2.
    + by rewrite IH.
Qed.

Lemma elem_of_set_keys key key' entry items :
  key' ∈ (ListSelection.set key entry items).*1
  ↔ key' = key ∨ key' ∈ items.*1.
Proof.
  induction items as [|[k e] items IH]; cbn.
  - rewrite list_elem_of_singleton, elem_of_nil. tauto.
  - case_bool_decide as Hk; cbn; rewrite !elem_of_cons.
    + subst k. tauto.
    + rewrite IH. tauto.
Qed.

Lemma set_consistent key entry items :
  key = idField (ListSelection.item entry) →
  ListSelection.consistent idField items →
  ListSelection.consistent idField (ListSelection.set key entry items).
Proof.
  intros Hkey [Hnodup Hkeyed]. split.
  - induction items as [|[k e] items IH]; cbn.
    + apply NoDup_singleton.
    + cbn in Hnodup. apply NoDup_cons in Hnodup as [Hk Hnodup].
      apply Forall_cons in Hkeyed as [_ Hkeyed].
      case_bool_decide as Hkk; cbn.
      * by apply NoDup_cons.
      * apply NoDup_cons. split; [|by apply IH].
        rewrite elem_of_set_keys. intros [?|?]; [congruence | done].
  - clear Hnodup. induction Hkeyed as [|[k e] items Hk Hitems IH]; cbn.
    + by repeat constructor.
    + case_bool_decide as Hkk; constructor; try done.
      cbn. congruence.
Qed.

Lemma get_Some_elem_of key entry items :
  ListSelection.get key items = Some entry → (key, entry) ∈ items.
Proof.
  induction items as [|[k e] items IH]; [done|]. cbn.
  case_bool_decide as Hk.
  - intros [= ->]. subst k. by left.
  - intros Hget. right. by apply IH.
Qed.

Lemma elem_of_get key entry items :
  NoDup items.*1 → (key, entry) ∈ items →
  ListSelection.get key items = Some entry.
Proof.
  induction items as [|[k e] items IH]; cbn.
  - intros _ Hin. by apply elem_of_nil in Hin.
  - intros [Hk Hnodup]%NoDup_cons [[= -> ->]|Hin]%elem_of_cons.
    + by rewrite bool_decide_eq_true_2.
    + rewrite bool_decide_eq_false_2; [by apply IH|].
      intros ->. apply Hk. apply list_elem_of_fmap. by exists (key, entry).
Qed.

Lemma getSelectedItems_acc items (acc : list T) :
  foldl (λ selectedItems (e : string * ListSelection.Entry),
           if ListSelection.selected e.2
           then selectedItems ++ [ListSelection.item e.2]
           else selectedItems) acc items
  = acc ++ ListSelection.getSelectedItems items.
Proof.
  unfold ListSelection.getSelectedItems.
  revert acc. induction items as [|[k e] items IH]; intros acc; cbn.
  - by rewrite app_nil_r.
  - rewrite IH. rewrite (IH (if ListSelection.selected e then _ else _)).
    destruct (ListSelection.selected e); cbn; [|done].
    by rewrite <- app_assoc.
Qed.

Lemma elem_of_getSelectedItems (x : T) items :
  x ∈ ListSelection.getSelectedItems items
  ↔ ∃ key entry, (key, entry) ∈ items ∧ ListSelection.selected entry = true
                 ∧ ListSelection.item entry = x.
Proof.
  induction items as [|[k e] items IH].
  - cbn. split; [by intros ?%elem_of_nil|].
    by intros (? & ? & ?%elem_of_nil & _).
  - unfold ListSelection.getSelectedItems. cbn [foldl].
    rewrite getSelectedItems_acc, elem_of_app, IH. cbn. split.
    + intros [Hhere|(key & entry & Hin & Hsel & Hitem)].
      * destruct (ListSelection.selected e) eqn:Hsel; cbn in Hhere.
        -- apply list_elem_of_singleton in Hhere as ->.
           exists k, e. split; [by left | done].
        -- by apply elem_of_nil in Hhere.
      * exists key, entry. split; [by right | done].
    + intros (key & entry & [[= -> ->]|Hin]%elem_of_cons & Hsel & Hitem).
      * left. rewrite Hsel. cbn. apply list_elem_of_singleton. done.
      * right. by exists key, entry.
Qed.

Lemma update_item_get this_props status items (x : T) key :
  ListSelection.get key (ListSelection.update_item idField this_props status items x)
  = if bool_decide (key = idField x)
       && negb (ListSelection.has (idField x) items
                && ListSelection.is_partial status)
    then Some {| ListSelection.item := x;
                 ListSelection.selected :=
                   ListSelection.is_selected
                     (ListSelection.selectionStatus this_props) |}
    else ListSelection.get key items.
Proof.
  unfold ListSelection.update_item.
  destruct (negb _) eqn:Hguard; rewrite ?andb_false_r, ?andb_true_r.
  - case_bool_decide as Hkey.
    + subst key. apply get_set_eq.
    + by apply get_set_ne.
  - done.
Qed.

Lemma is_partial_spec (status : option SearchStore.SelectionStatus) :
  ListSelection.is_partial status = true
  ↔ status = Some SearchStore.StatusPartial.
Proof. by destruct status as [[]|]. Qed.

Lemma has_spec key items :
  ListSelection.has key items = true ↔ is_Some (ListSelection.get key items).
Proof.
  unfold ListSelection.has. destruct (ListSelection.get key items); cbn.
  - split; [by eauto | done].
  - split; [done | by intros [??]].
Qed.

Lemma update_item_consistent this_props status items (x : T) :
  ListSelection.consistent idField items →
  ListSelection.consistent idField (ListSelection.update_item idField this_props status items x).
Proof.
  intros Hc. unfold ListSelection.update_item.
  destruct (negb _); [|done]. by apply set_consistent.
Qed.

(** X21. With the status ["partial"], [updateItems] leaves every entry
    the map already has as it is, so every selected item stays
    selected. *)
Theorem updateItems_partial_keeps_entries this_props props items :
  ListSelection.selectionStatus props = Some SearchStore.StatusPartial →
  let items' := ListSelection.updateItems idField this_props props items in
  (∀ key entry, ListSelection.get key items = Some entry →
                ListSelection.get key items' = Some entry)
  ∧ (ListSelection.consistent idField items →
     ∀ x, x ∈ ListSelection.getSelectedItems items →
          x ∈ ListSelection.getSelectedItems items').
Proof.
  intros Hpartial. cbn zeta.
  assert (∀ key entry, ListSelection.get key items = Some entry →
            ListSelection.get key
              (ListSelection.updateItems idField this_props props items)
            = Some entry) as Hkeep.
  { unfold ListSelection.updateItems. rewrite Hpartial.
    destruct (ListSelection.values props) as [values|]; [|done].
    revert items. induction values as [|x values IH]; intros items key entry Hget;
      [done|].
    cbn [foldl]. apply IH. rewrite update_item_get.
    case_bool_decide as Hkey; [|done]. subst key.
    assert (ListSelection.has (idField x) items = true) as ->
      by (apply has_spec; by eexists).
    done. }
  split; [done|].
  intros [Hnodup _] x (key & entry & Hin & Hsel & Hitem)%elem_of_getSelectedItems.
  apply elem_of_getSelectedItems. exists key, entry. split; [|done].
  apply get_Some_elem_of, Hkeep. by apply elem_of_get.
Qed.

(** X22. [updateItems] only adds: a key of the map stays in the map,
    every listed value has its key in the map afterwards, a key of none of
    the listed values keeps its entry, and the map stays consistent. *)
Theorem updateItems_only_adds this_props props items :
  let items' := ListSelection.updateItems idField this_props props items in
  (∀ key, is_Some (ListSelection.get key items) →
          is_Some (ListSelection.get key items'))
  ∧ (∀ values x, ListSelection.values props = Some values → x ∈ values →
                 is_Some (ListSelection.get (idField x) items'))
  ∧ (∀ key, (∀ values x, ListSelection.values props = Some values →
                         x ∈ values → idField x ≠ key) →
            ListSelection.get key items' = ListSelection.get key items)
  ∧ (ListSelection.consistent idField items → ListSelection.consistent idField items').
Proof.
  cbn zeta. unfold ListSelection.updateItems.
  destruct (ListSelection.values props) as [values|].
  2:{ split; [done|]. split; [by intros ?? [=]|]. split; done. }
  set (step := ListSelection.update_item idField this_props
                 (ListSelection.selectionStatus props)).
  assert (∀ (vs : list T) items key,
            is_Some (ListSelection.get key items) →
            is_Some (ListSelection.get key (foldl step items vs)))
    as Hgrows.
  { induction vs as [|x vs IH]; intros items0 key Hsome; [done|].
    cbn [foldl]. apply IH. unfold step. rewrite update_item_get.
    by destruct (_ && _). }
  split; [by apply Hgrows|]. split; [|split].
  - intros values' x [= <-] Hin. revert items.
    induction values as [|y values IH]; intros items;
      [by apply elem_of_nil in Hin|].
    cbn [foldl]. apply elem_of_cons in Hin as [->|Hin]; [|by apply IH].
    apply Hgrows. unfold step. rewrite update_item_get.
    rewrite bool_decide_eq_true_2 by done. cbn.
    destruct (ListSelection.has (idField y) items) eqn:Hhas; cbn.
    + destruct (ListSelection.is_partial _); cbn; [|done].
      by apply has_spec.
    + done.
  - intros key Hother.
    assert (∀ x, x ∈ values → idField x ≠ key) as Hne by eauto.
    clear Hother. revert items.
    induction values as [|y values IH]; intros items; [done|].
    cbn [foldl]. rewrite IH by (intros x Hx; apply Hne; by right).
    unfold step. rewrite update_item_get.
    rewrite bool_decide_eq_false_2; [done|]. intros ->.
    by apply (Hne y); [left|].
  - revert items. induction values as [|y values IH]; intros items Hc; [done|].
    cbn [foldl]. apply IH. by apply update_item_consistent.
Qed.

(** X23. With a status other than ["partial"], [updateItems] rewrites
    the entry of every listed value: afterwards the key of a listed value
    holds a listed value with that key, selected exactly when the status
    of the component's own props is ["selected"]. *)
Theorem updateItems_reseeds this_props props items values :
  ListSelection.selectionStatus props ≠ Some SearchStore.StatusPartial →
  ListSelection.values props = Some values →
  let items' := ListSelection.updateItems idField this_props props items in
  ∀ x, x ∈ values →
       ∃ entry,
         ListSelection.get (idField x) items' = Some entry
         ∧ idField (ListSelection.item entry) = idField x
         ∧ ListSelection.item entry ∈ values
         ∧ ListSelection.selected entry
           = ListSelection.is_selected (ListSelection.selectionStatus this_props).
Proof.
  intros Hstatus Hvalues. cbn zeta. unfold ListSelection.updateItems.
  rewrite Hvalues. clear Hvalues.
  set (step := ListSelection.update_item idField this_props
                 (ListSelection.selectionStatus props)).
  set (good (seen : list T) (key : string) (e : ListSelection.Entry) :=
         idField (ListSelection.item e) = key ∧ ListSelection.item e ∈ seen
         ∧ ListSelection.selected e
           = ListSelection.is_selected (ListSelection.selectionStatus this_props)).
  assert (∀ (rest done : list T) items,
            (∀ x, x ∈ done →
                  ∃ e, ListSelection.get (idField x) items = Some e
                       ∧ good (done ++ rest) (idField x) e) →
            ∀ x, x ∈ done ++ rest →
                 ∃ e, ListSelection.get (idField x) (foldl step items rest)
                      = Some e
                      ∧ good (done ++ rest) (idField x) e) as Hloop.
  { induction rest as [|y rest IH]; intros done items0 Hdone x Hin.
    - rewrite app_nil_r in Hin. by apply Hdone.
    - cbn [foldl].
      replace (done ++ y :: rest) with ((done ++ [y]) ++ rest) in *
        by (by rewrite <- app_assoc).
      apply IH; [|done]. clear x Hin.
      intros x Hx. unfold step. rewrite update_item_get.
      assert (ListSelection.is_partial (ListSelection.selectionStatus props)
              = false) as ->.
      { apply not_true_is_false. by rewrite is_partial_spec. }
      rewrite andb_false_r, andb_true_r.
      case_bool_decide as Hkey.
      + eexists. split; [done|]. unfold good. cbn.
        split; [done|]. split; [|done].
        rewrite !elem_of_app, list_elem_of_singleton. auto.
      + apply elem_of_app in Hx as [Hx|Hx%list_elem_of_singleton];
          [|by subst x].
        destruct (Hdone x Hx) as (e & Hget & Hgood). by exists e. }
  intros x Hin. destruct (Hloop values [] items) with (x := x)
    as (e & Hget & Hkey & Hseen & Hsel); [|done|].
  - by intros ? ?%elem_of_nil.
  - by exists e.
Qed.

(** X24. [handleLineSelection] records the item and its state under the
    item's key and leaves the other keys alone; [onSelection] is called,
    with the item and the state, exactly when the prop is there and
    [isInit] is not [true]. On a consistent map, a selected item is among
    [getSelectedItems] and an unselected one leaves no selected item with
    its key. *)
Theorem handleLineSelection_records has_onSelection (x : T) (selected : bool)
    (isInit : option bool) items :
  let result :=
    ListSelection.handleLineSelection idField has_onSelection x selected
      isInit items in
  ListSelection.get (idField x) result.1
  = Some {| ListSelection.item := x; ListSelection.selected := selected |}
  ∧ (∀ key, key ≠ idField x →
            ListSelection.get key result.1 = ListSelection.get key items)
  ∧ (result.2 = Some (x, selected)
     ↔ has_onSelection = true ∧ isInit ≠ Some true)
  ∧ (result.2 = None ∨ result.2 = Some (x, selected))
  ∧ (ListSelection.consistent idField items →
     ListSelection.consistent idField result.1
     ∧ (selected = true → x ∈ ListSelection.getSelectedItems result.1)
     ∧ (selected = false →
        ∀ y, y ∈ ListSelection.getSelectedItems result.1 →
             idField y ≠ idField x)).
Proof.
  cbn. split; [apply get_set_eq|]. split.
  { intros key Hne. by apply get_set_ne. }
  split.
  { destruct has_onSelection, isInit as [[]|]; cbn; split; try done.
    all: by intros [??]. }
  split; [destruct (_ && _); auto|].
  intros Hc.
  assert (ListSelection.consistent idField
            (ListSelection.set (idField x)
               {| ListSelection.item := x; ListSelection.selected := selected |}
               items)) as Hc' by (by apply set_consistent).
  split; [done|]. split.
  - intros ->. apply elem_of_getSelectedItems. eexists _, _.
    split; [apply get_Some_elem_of, get_set_eq | done].
  - intros -> y (key & entry & Hin & Hsel & <-)%elem_of_getSelectedItems Hkey.
    destruct Hc' as [Hnodup Hkeyed].
    rewrite Forall_forall in Hkeyed. pose proof (Hkeyed _ Hin) as Hk. cbn in Hk.
    apply (elem_of_get _ _ _ Hnodup) in Hin.
    rewrite Hk, Hkey, get_set_eq in Hin. injection Hin as <-. done.
Qed.

End ListSelectionFacts.

(* ===================================================================== *)
(** * These properties at concrete inputs *)
(* ===================================================================== *)

Lemma missing_value_passes_regex_email_number_witness :
  Validation.isValid_of (Examples.property VNull)
    (@Examples.number_between Examples.decimal_host
       (Some 0%float) (Some 100%float)) = Some true
  ∧ Validation.isValid_of (Examples.property VNull)
      (@Examples.required Examples.decimal_host) = Some false.
Proof.
  pose proof (missing_value_passes_regex_email_number
                (host:=Examples.decimal_host) (Examples.property VNull)
                (or_introl eq_refl)) as (_ & _ & Hnumber & Hrequired).
  split; [apply Hnumber | apply Hrequired].
Defined.

Lemma numberValidator_rejects_NaN_witness :
  fails (Examples.property (VStr "abc"))
    (@Validation.NumberValidator Examples.decimal_host None)
  ∧ fails (Examples.property (VNum 5%float))
      (@Examples.number_between Examples.decimal_host (Some nan) None).
Proof.
  split.
  - apply (numberValidator_rejects_NaN (host:=Examples.decimal_host)
             (Examples.property (VStr "abc"))).
    + intros [Hnull|Hundefined]; [discriminate Hnull | discriminate Hundefined].
    + reflexivity.
  - apply (numberValidator_rejects_NaN (host:=Examples.decimal_host)
             (Examples.property (VNum 5%float))).
    + intros [Hnull|Hundefined]; [discriminate Hnull | discriminate Hundefined].
    + left. reflexivity.
Defined.

Lemma validate_does_not_read_names_witness :
  Validation.errors
    (Validation.validate (Examples.property (VStr "abc"))
       (Some [@Validation.NumberValidator Examples.decimal_host None]))
  = Validation.errors
      (Validation.validate (MoreExamples.user_age (VStr "abc"))
         (Some [@Validation.NumberValidator Examples.decimal_host None])).
Proof.
  apply (validate_does_not_read_names (host:=Examples.decimal_host)
           (Examples.property (VStr "abc")) (MoreExamples.user_age (VStr "abc"))).
  reflexivity.
Defined.

Lemma search_fulfilled_settles_witness :
  Store.pendingCount
    (SearchStore.store
       (SearchStore.search true
          (Examples.world_of
             (@Examples.two_items Examples.decimal_host None false
                (Examples.answers (Some [3; 4]))))).2) = 0%Z
  ∧ Store.selectedList
      (SearchStore.store
         (SearchStore.search true
            (Examples.world_of
               (@Examples.two_items Examples.decimal_host None false
                  (Examples.answers (Some [3; 4]))))).2) = [].
Proof.
  pose proof (search_fulfilled_settles (host:=Examples.decimal_host) true
                (Examples.world_of
                   (Examples.two_items None false
                      (Examples.answers (Some [3; 4]))))
                (Examples.response_of (Some [3; 4])) eq_refl eq_refl)
    as (_ & Hpending & Hselected & _).
  split; [exact Hpending | exact Hselected].
Defined.

Lemma search_request_criteria_witness :
  ∃ data query,
    SearchStore.calls
      (SearchStore.search false
         (Examples.world_of
            (@Examples.two_items Examples.decimal_host None false
               Examples.refuses))).2
    = [] ++ [data]
    ∧ QueryInput.criteria data !! "query" = Some (VStr query)
    ∧ query ≠ "".
Proof.
  destruct (search_request_criteria (host:=Examples.decimal_host) false
              (Examples.world_of
                 (Examples.two_items None false Examples.refuses)) eq_refl)
    as (data & query & Hcalls & Hquery & Hne & _).
  exists data, query. split; [exact Hcalls|]. split; [exact Hquery | exact Hne].
Defined.

Lemma search_scroll_twice_witness :
  Store.list
    (SearchStore.store
       (SearchStore.search true
          (SearchStore.search true
             (Examples.world_of
                (@Examples.two_items Examples.decimal_host None false
                   (Examples.answers (Some [3]))))).2).2)
  = [1; 2] ++ [3] ++ [3].
Proof.
  apply (search_scroll_twice (host:=Examples.decimal_host)
           (Examples.world_of
              (Examples.two_items None false (Examples.answers (Some [3]))))
           (Examples.response_of (Some [3])) (Examples.response_of (Some [3]))
           [3] [3]); reflexivity.
Defined.

Lemma toggleAll_after_select_all_witness :
  Store.selectedList
    (SearchStore.toggleAll
       (@Examples.grouped Examples.decimal_host [1; 2; 3; 4; 5])) = [].
Proof.
  apply (toggleAll_after_select_all
           (@Examples.grouped Examples.decimal_host [1; 2; 3; 4; 5])).
  - reflexivity.
  - apply (bool_decide_unpack _). vm_compute. exact I.
Defined.

Lemma group_view_of_missing_group_witness :
  SearchStore.view_selectionStatus (SearchStore.getSearchGroupStore "z")
    (@Examples.grouped Examples.decimal_host [1; 3])
  = Normal SearchStore.StatusNone.
Proof.
  apply (group_view_of_missing_group "z"
           (@Examples.grouped Examples.decimal_host [1; 3])).
  apply (bool_decide_unpack _). vm_compute. exact I.
Defined.

Lemma updateItems_partial_keeps_entries_witness :
  ListSelection.get "a"
    (ListSelection.updateItems (λ text, text)
       (MoreExamples.props_of None ["a"; "b"])
       (MoreExamples.props_of (Some SearchStore.StatusPartial) ["a"; "b"])
       MoreExamples.only_a)
  = Some (MoreExamples.line "a" true).
Proof.
  apply (updateItems_partial_keeps_entries (λ text, text)
           (MoreExamples.props_of None ["a"; "b"])
           (MoreExamples.props_of (Some SearchStore.StatusPartial) ["a"; "b"])
           MoreExamples.only_a eq_refl).
  reflexivity.
Defined.

Lemma updateItems_reseeds_witness :
  ∃ entry,
    ListSelection.get "a"
      (ListSelection.updateItems (λ text, text)
         (MoreExamples.props_of (Some SearchStore.StatusNone) ["a"; "b"])
         (MoreExamples.props_of (Some SearchStore.StatusNone) ["a"; "b"])
         MoreExamples.only_a)
    = Some entry
    ∧ ListSelection.item entry = "a"
    ∧ ListSelection.item entry ∈ ["a"; "b"]
    ∧ ListSelection.selected entry = false.
Proof.
  apply (updateItems_reseeds (λ text, text)
           (MoreExamples.props_of (Some SearchStore.StatusNone) ["a"; "b"])
           (MoreExamples.props_of (Some SearchStore.StatusNone) ["a"; "b"])
           MoreExamples.only_a ["a"; "b"]).
  - discriminate.
  - reflexivity.
  - apply (bool_decide_unpack _). vm_compute. exact I.
Defined.
